(** * HyperGAN: the hypernetwork trainer ([train_hypernetwork.py])

    A shallow embedding of [HyperNetworkTrainer]: its constructor, the
    training loop and the ensemble evaluation with soft and hard voting.

    Conventions of the embedding.
    - Tensors are nested lists; a tensor of shape [N, B, D] is a
      [list (list (list Q))].  Floating-point reals are modelled by exact
      rationals ([Q]); rounding is outside the model.
    - [self] is a record threaded through a state-and-exception monad;
      a Python exception is a value of [error].
    - The collaborators that live in other modules ([hypernetwork],
      [stein_estimators], [datagen], [utils], [evaluate_uncertainty]) are
      interfaces (type classes); the framework primitives that need
      transcendental functions ([softmax], [cross_entropy]) are class
      members as well. *)

From Stdlib Require Import List Arith ZArith QArith Qminmax Bool String Lia.
From Stdlib Require Import Orders Sorting.Sorted Sorting.Permutation Sorting.Mergesort.
From Stdlib Require Import QMicromega Lqa DecimalString.
Import ListNotations.

Set Implicit Arguments.
Local Open Scope Q_scope.

(** ** Python exceptions and the result type *)

Inductive error : Type :=
| AttributeError (attr : string)
| UnboundLocalError (var : string)
| ZeroDivisionError
| IndexError
| RuntimeError (msg : string).

Inductive result (A : Type) : Type :=
| Ok (a : A)
| Raise (e : error).
Arguments Ok {A} a.
Arguments Raise {A} e.

Definition rbind {A B} (r : result A) (k : A -> result B) : result B :=
  match r with
  | Ok a => k a
  | Raise e => Raise e
  end.

(** The value of a computation that is known to return. *)
Definition unwrap {A : Type} (r : result A)
  : match r return Type with Ok _ => A | Raise _ => unit end :=
  match r with
  | Ok a => a
  | Raise _ => tt
  end.

Fixpoint rmap {A B} (f : A -> result B) (l : list A) : result (list B) :=
  match l with
  | [] => Ok []
  | x :: xs => rbind (f x) (fun y => rbind (rmap f xs) (fun ys => Ok (y :: ys)))
  end.

(** ** Tensor primitives (torch) *)

Module Tensor.

Definition vec := list Q.
Definition mat := list (list Q).
Definition tensor3 := list (list (list Q)).

(** [t.transpose(0, 1)] on the two outer dimensions of a rectangular
    nested list. *)
Fixpoint transpose {A} (rows : list (list A)) : list (list A) :=
  match rows with
  | [] => []
  | [r] => map (fun x => [x]) r
  | r :: rs => map (fun p => fst p :: snd p) (combine r (transpose rs))
  end.

Definition Qsum (l : list Q) : Q := fold_left Qplus l 0.

(** [t.mean()] of a one-dimensional tensor. *)
Definition mean (l : list Q) : Q := Qsum l / inject_Z (Z.of_nat (List.length l)).

Definition vadd (a b : vec) : vec := map (fun p => fst p + snd p) (combine a b).
Definition madd (a b : mat) : mat := map (fun p => vadd (fst p) (snd p)) (combine a b).

(** [t.mean(0)] of an [n, B, D] tensor with [n >= 1]: the element-wise sum
    over the leading dimension divided by [n].  The quotient is the exact
    rational one; the rounding of a float32 division is not modelled, so
    for [n > 1] nothing is concluded from comparing two quotients.  For
    [n = 1] the division is by one and exact in floating point as well. *)
Definition mean0 (t : tensor3) : mat :=
  match t with
  | [] => []
  | m :: ms =>
      map (map (fun x => x / inject_Z (Z.of_nat (List.length t)))) (fold_left madd ms m)
  end.

(** [t.argmax(-1)] of one row: the index of the first maximal entry; torch
    raises on a reduction dimension of size zero. *)
Fixpoint argmax_from (best_i : nat) (best : Q) (i : nat) (l : list Q) : nat :=
  match l with
  | [] => best_i
  | x :: r =>
      if Qlt_bool best x then argmax_from i x (S i) r
      else argmax_from best_i best (S i) r
  end.

Definition argmax (row : vec) : result nat :=
  match row with
  | [] => Raise IndexError
  | x :: r => Ok (argmax_from 0%nat x 1%nat r)
  end.

(** [i] is the position of the first maximum of [row]. *)
Definition first_max (row : vec) (i : nat) : Prop :=
  (i < List.length row)%nat /\
  (forall j, (j < List.length row)%nat -> nth j row 0 <= nth i row 0) /\
  (forall j, (j < i)%nat -> nth j row 0 < nth i row 0).

Module LabelOrder <: Orders.TotalLeBool.
Definition t := nat.
Definition leb := Nat.leb.
Theorem leb_total : forall a1 a2, leb a1 a2 = true \/ leb a2 a1 = true.
Proof.
  intros a1 a2. unfold leb.
  destruct (Nat.leb_spec a1 a2) as [H|H]; [now left|right].
  apply Nat.leb_le. lia.
Qed.
End LabelOrder.

Module LabelSort := Sort LabelOrder.

(** [torch.mode] on the CPU, one row of labels: the row is sorted in
    ascending order and scanned once; a run replaces the current mode only
    when it is strictly longer than the longest run seen so far. *)
Fixpoint mode_scan (l : list nat) (temp_freq mode max_freq : nat) : nat :=
  match l with
  | [] => mode
  | x :: rest =>
      let temp_freq := S temp_freq in
      let run_ends :=
        match rest with
        | [] => true
        | y :: _ => negb (Nat.eqb x y)
        end in
      if run_ends then
        if Nat.ltb max_freq temp_freq
        then mode_scan rest 0%nat x temp_freq
        else mode_scan rest 0%nat mode max_freq
      else mode_scan rest temp_freq mode max_freq
  end.

Definition mode (row : list nat) : nat :=
  mode_scan (LabelSort.sort row) 0%nat 0%nat 0%nat.

(** Occurrences of [v] still to be credited to its run: those in the rest
    of the row, and the [tf] already scanned when [v] heads the rest. *)
Definition pending (rest : list nat) (tf : nat) (v : nat) : nat :=
  (count_occ Nat.eq_dec rest v +
   match rest with
   | x :: _ => if Nat.eqb x v then tf else 0
   | [] => 0
   end)%nat.

(** [preds.mode(0)[0]] of an [n, B] tensor of labels, [n >= 1]. *)
Definition mode0 (preds : list (list nat)) : list nat :=
  map mode (transpose preds).

End Tensor.

(** ** The Stein gradient estimator ([stein_estimators])

    The module is not among the sources; what follows is the estimator as
    sections 4.2, 6 and 7 of the specification describe it, over exact
    rationals and with the kernel's exponential left abstract.  The
    data-loss gradients come from automatic differentiation and are an
    input here. *)

Module Stein.

(** Modelled from the spec: [GradientEstimatorStein] is not among the
    sources; the two estimator modes of section 6. *)
Inductive estimator : Type := naive | svgd.

Section Estimator.

(** The exponential of the RBF kernel. *)
Variable kexp : Q -> Q.

(** The floor under the kernel bandwidth. *)
Variable h_min : Q.

Definition particle := list Q.

(** Modelled from the spec: [GradientEstimatorStein] is not among the
    sources; section 4.2 asks that no NaN be produced, so a float division
    whose result leaves the finite range ([NaN] for [0/0], an infinity
    otherwise) is [None]. *)
Definition fdiv (a b : Q) : option Q :=
  if Qeq_bool b 0 then None else Some (a / b).

Definition obind {A B} (o : option A) (k : A -> option B) : option B :=
  match o with
  | Some a => k a
  | None => None
  end.

Fixpoint omap {A B} (f : A -> option B) (l : list A) : option (list B) :=
  match l with
  | [] => Some []
  | x :: xs => obind (f x) (fun y => obind (omap f xs) (fun ys => Some (y :: ys)))
  end.

Definition scale (a : Q) (v : particle) : particle := map (Qmult a) v.

Definition vsub (a b : particle) : particle :=
  map (fun p => fst p - snd p) (combine a b).

Definition vsum (dim : nat) (vs : list particle) : particle :=
  fold_left Tensor.vadd vs (repeat 0 dim).

Definition sqdist (x y : particle) : Q :=
  Tensor.Qsum (map (fun d => d * d) (vsub x y)).

Fixpoint insert_sorted (x : Q) (l : list Q) : list Q :=
  match l with
  | [] => [x]
  | y :: r => if Qle_bool x y then x :: l else y :: insert_sorted x r
  end.

Definition sort_asc (l : list Q) : list Q := fold_right insert_sorted [] l.

(** Modelled from the spec: [GradientEstimatorStein] is not among the
    sources; the median of section 4.2, taken as the lower median that
    [torch.median] returns. *)
Definition median (l : list Q) : Q :=
  nth ((List.length l - 1) / 2) (sort_asc l) 0.

(** Modelled from the spec: [GradientEstimatorStein] is not among the
    sources; section 4.2 sets the bandwidth of the RBF kernel by the median
    pairwise distance across the particle vectors, and section 7 asks for a
    clamped minimum bandwidth. *)
Definition bandwidth (ps : list particle) : Q :=
  Qmax (median (flat_map (fun x => map (sqdist x) ps) ps)) h_min.

(** Modelled from the spec: [GradientEstimatorStein] is not among the
    sources; the kernel matrix [K[i,j]] of section 4.2, an RBF kernel
    [exp(-|x_i - x_j|^2 / h)]. *)
Definition kernel_matrix (ps : list particle) : option (list (list Q)) :=
  let h := bandwidth ps in
  omap (fun x =>
    omap (fun y => obind (fdiv (- sqdist x y) h) (fun e => Some (kexp e))) ps) ps.

(** Modelled from the spec: [GradientEstimatorStein] is not among the
    sources; the term [sum_j grad_j K[i,j]] of section 4.2 for particle
    [x]: the gradient of the RBF kernel with respect to [x_j] is
    [K[i,j] * 2 (x_i - x_j) / h]. *)
Definition repulsion (ps : list particle) (x : particle) : option particle :=
  let h := bandwidth ps in
  obind (omap (fun y =>
           obind (fdiv (- sqdist x y) h) (fun e =>
           omap (fun d => fdiv (kexp e * 2 * d) h) (vsub x y))) ps) (fun gs =>
  Some (vsum (List.length x) gs)).

(** Modelled from the spec: [GradientEstimatorStein] is not among the
    sources; the baseline of section 4.2: the gradient for each particle is
    just its own data-loss gradient, scaled by the fixed [alpha]. *)
Definition naive_gradients (alpha : Q) (grad_loss : list particle) : list particle :=
  map (scale alpha) grad_loss.

(** Modelled from the spec: [GradientEstimatorStein] is not among the
    sources; the Stein mode of section 4.2: the corrected gradient for
    particle [i] is [alpha * sum_j K[i,j] * grad_loss[j] + sum_j grad_j
    K[i,j]], averaged by the ensemble size. *)
Definition svgd_gradients (alpha : Q) (ps grad_loss : list particle)
  : option (list particle) :=
  let n := inject_Z (Z.of_nat (List.length ps)) in
  obind (kernel_matrix ps) (fun K =>
  omap (fun xk =>
    let x := fst xk in
    let attraction :=
      vsum (List.length x)
           (map (fun kg => scale (fst kg) (snd kg)) (combine (snd xk) grad_loss)) in
    obind (repulsion ps x) (fun rep =>
    omap (fun g => fdiv g n) (Tensor.vadd (scale alpha attraction) rep)))
    (combine ps K)).

(** Modelled from the spec: [GradientEstimatorStein] is not among the
    sources; the two modes of section 4.2, selected at construction
    ({svgd, naive} in section 6). *)
Definition corrected_gradients (est : estimator) (alpha : Q)
    (ps grad_loss : list particle) : option (list particle) :=
  match est with
  | naive => Some (naive_gradients alpha grad_loss)
  | svgd => svgd_gradients alpha ps grad_loss
  end.

End Estimator.

End Stein.

(** ** Python floats that hold the best metrics

    [best_test_loss] starts at [np.inf]; comparisons follow IEEE: every
    comparison with [NaN] is false. *)

Inductive fnum : Type :=
| Fin (q : Q)
| PInf
| NInf
| NaN.

Definition flt (a b : fnum) : bool :=
  match a, b with
  | Fin x, Fin y => Qlt_bool x y
  | Fin _, PInf => true
  | NInf, Fin _ => true
  | NInf, PInf => true
  | _, _ => false
  end.

Definition fgt (a b : fnum) : bool := flt b a.

(** [a <= b] for two floats that are not [NaN]. *)
Definition fle (a b : fnum) : Prop := a = b \/ flt a b = true.

(** ** Command line ([load_args]) *)

Module args.

Record t : Type := mk {
  s_dim : nat;
  z_dim : nat;
  num_hidden_gen : nat;
  hidden_w_gen : nat;
  num_particles : nat;
  target_arch : string;
  grad : string;
  resume : bool;
  dataset : string;
  use_bias : bool;
  use_mixer : bool;
  pretrain_mixer : bool;
  use_bn : bool;
  test_ensemble : bool;
  test_uncertainty : bool;
  vote : string
}.

(** The parser's defaults: what [load_args] returns for an empty command
    line. *)
Definition defaults : t :=
  {| s_dim := 512; z_dim := 32; num_hidden_gen := 2; hidden_w_gen := 32;
     num_particles := 32; target_arch := "lenet"; grad := "svgd";
     resume := false; dataset := "mnist"; use_bias := true;
     use_mixer := false; pretrain_mixer := false; use_bn := false;
     test_ensemble := false; test_uncertainty := false; vote := "hard" |}.

End args.

(** Keyword arguments of [hypernetwork.HyperNetwork(...)]. *)
Record HyperNetworkArgs : Type := mkHNArgs {
  hn_s_dim : nat;
  hn_z_dim : nat;
  hn_use_mixer : bool;
  hn_noise_type : string;
  hn_hidden_layers : list nat;
  hn_particles : nat;
  hn_use_bias : bool;
  hn_use_batchnorm : bool;
  hn_clear_bn_bias : bool;
  hn_target_arch : string
}.

(** A data loader: the batches it yields and [len(loader.dataset)]. *)
Record Loader (data : Type) : Type := mkLoader {
  batches : list (data * list nat);
  dataset_len : nat
}.

(** ** Interfaces of the collaborating modules *)

(** [hypernetwork.HyperNetwork]: an object with hidden mutable state
    (generator weights, gradient accumulators, the installed particles and
    the random generator it draws from); every method is a transformer of
    that state. *)
Class HyperNetworkAPI (HN latent theta data : Type) : Type := {
  HyperNetwork : HyperNetworkArgs -> HN;
  set_target_architecture : HN -> HN;
  set_hypernetwork_mixer : HN -> HN;
  set_hypernetwork_layers : HN -> HN;
  print_architecture : HN -> HN;
  attach_optimizers : Q -> Q -> HN -> HN;
  sample_generator_input : HN -> latent * HN;
  sample_parameters : latent -> HN -> theta * HN;
  set_parameters_to_model : theta -> HN -> HN;
  forward_model : data -> HN -> Tensor.tensor3 * HN;
  zero_grad : HN -> HN;
  update_step : HN -> HN;
  hn_eval : HN -> HN;
  hn_train : HN -> HN
}.

(** [stein_estimators.GradientEstimatorStein] as the trainer uses it. *)
Class GradientEstimatorAPI (GE HN theta : Type) : Type := {
  GradientEstimatorStein : nat -> Q -> string -> GE;
  compute_gradients : Tensor.tensor3 -> theta -> list nat -> GE -> list Q * GE;
  apply_gradients : GE -> HN -> GE * HN
}.

(** [datagen], [evaluate_uncertainty] and [utils.plot_density_*]. *)
Inductive plotter : Type := plot_density_mnist | plot_density_cifar.

Class DataAPI (HN data : Type) : Type := {
  load_mnist : Loader data * Loader data;
  load_cifar : Loader data * Loader data;
  eval_mnist_hypernetwork : HN -> nat -> nat -> bool -> (Q * Q) * HN;
  eval_cifar5_hypernetwork : HN -> nat -> nat -> bool -> (Q * Q) * HN
}.

(** [F.softmax(_, dim=-1)] on one row and [F.cross_entropy] of one example
    (logits row and target label); [F.cross_entropy(x, target)] on a batch
    is the mean over the examples (the default reduction). *)
Class Functional : Type := {
  softmax : Tensor.vec -> Tensor.vec;
  nll : Tensor.vec -> nat -> Q
}.

Definition cross_entropy `{Functional} (x : Tensor.mat) (target : list nat) : Q :=
  Tensor.mean (map (fun p => nll (fst p) (snd p)) (combine x target)).

(** What the real [softmax] gives the model: it keeps the length of the
    row and the strict order of its entries. *)
Definition softmax_monotone `{Functional} : Prop :=
  forall row : Tensor.vec,
    List.length (softmax row) = List.length row /\
    forall i j : nat, (i < List.length row)%nat -> (j < List.length row)%nat ->
      (nth i row 0 < nth j row 0 <-> nth i (softmax row) 0 < nth j (softmax row) 0).

(** ** Ensemble voting (the two branches of [test]) *)

Section Voting.

Context `{FN : Functional}.

(** [vote == 'soft']: softmax, mean over the members, argmax per
    example. *)
Definition vote_soft (outputs : Tensor.tensor3) : result (list nat) :=
  let probs := map (map softmax) outputs in
  let preds := Tensor.mean0 probs in
  rmap Tensor.argmax preds.

(** [vote == 'hard']: softmax, argmax per member and example, mode over
    the members. *)
Definition vote_hard (outputs : Tensor.tensor3) : result (list nat) :=
  let probs := map (map softmax) outputs in
  rbind (rmap (rmap Tensor.argmax) probs) (fun preds =>
  Ok (Tensor.mode0 preds)).

(** The [if]/[elif] on [self.vote]; with neither branch taken the local
    [vote] is unbound where line 231 reads it. *)
Definition cast_vote (vote_mode : string) (outputs : Tensor.tensor3)
  : result (list nat) :=
  if String.eqb vote_mode "soft" then vote_soft outputs
  else if String.eqb vote_mode "hard" then vote_hard outputs
  else Raise (UnboundLocalError "vote").

(** [torch.stack] of a Python list of scalars; an empty list is
    refused. *)
Definition stack (l : list Q) : result (list Q) :=
  match l with
  | [] => Raise (RuntimeError "stack expects a non-empty TensorList")
  | _ => Ok l
  end.

(** [vote.eq(target.view_as(vote)).float().sum()] *)
Definition count_correct (v target : list nat) : result nat :=
  if Nat.eqb (List.length v) (List.length target)
  then Ok (List.length (filter (fun p => Nat.eqb (fst p) (snd p)) (combine v target)))
  else Raise (RuntimeError "shape is invalid for input size").

(** The body of the loop of [test] once the forward pass has returned
    [out] of shape [B, N, D]: the mean loss of the batch and the number
    of correct votes. *)
Definition score_batch (vote_mode : string) (ens_size : nat)
    (out : Tensor.tensor3) (target : list nat) : result (Q * nat) :=
  let outputs := Tensor.transpose out in
  let outputs := firstn ens_size outputs in
  rbind (stack (map (fun x => cross_entropy x target) outputs)) (fun losses =>
  rbind (cast_vote vote_mode outputs) (fun v =>
  rbind (count_correct v target) (fun c =>
  Ok (Tensor.mean losses, c)))).

(** The mean over the first [ens_size] members of the cross-entropy of one
    batch: [losses.mean()] in [test]. *)
Definition batch_mean_loss (ens_size : nat) (out : Tensor.tensor3)
    (target : list nat) : Q :=
  Tensor.mean (map (fun x => cross_entropy x target)
                   (firstn ens_size (Tensor.transpose out))).

(** The loss of each example of a batch, averaged over the first
    [ens_size] members. *)
Definition per_example_losses (ens_size : nat) (out : Tensor.tensor3)
    (target : list nat) : list Q :=
  map (fun mt => Tensor.mean (map (fun row => nll row (snd mt))
                                  (firstn ens_size (fst mt))))
      (combine out target).

End Voting.

(** ** The trainer ([HyperNetworkTrainer]) *)

Section Trainer.

Context {HN GE latent theta data : Type}.
Context {HNA : HyperNetworkAPI HN latent theta data}
        {GEA : GradientEstimatorAPI GE HN theta}
        {DA : DataAPI HN data}
        {FN : Functional}.

(** The calls that leave the trainer, in the order they are made. *)
Inductive event : Type :=
| EvManualSeed (seed : Z)
| EvAttachOptimizers (lr_mixer lr_generator : Q)
| EvSample (lat : latent)
| EvGenerate (lat : latent) (th : theta)
| EvInstall (th : theta)
| EvForward (d : data)
| EvComputeGradients (th : theta)
| EvZeroGrad
| EvApplyGradients
| EvUpdateStep
| EvLog (epoch batch_idx : nat) (loss : Q)
| EvEval
| EvTrain
| EvNewBest
| EvPrintTest (epoch n_models : nat) (loss acc : Q) (correct : nat)
| EvUncertainty (ens_size : nat) (outlier : bool)
| EvPlot (p : plotter) (ens_size epoch : nat).

(** [self]: the attributes that [__init__] sets (an attribute that was
    never assigned is [None]), and the trace of the calls made so far. *)
Record Trainer : Type := mkTrainer {
  s : nat;
  z : nat;
  particles : nat;
  target_arch : string;
  use_bn : bool;
  use_bias : bool;
  pretrain_mixer : bool;
  dataset : string;
  grad_type : string;
  epochs : nat;
  vote : string;
  test_ensemble : bool;
  test_uncertainty : bool;
  hidden_w_gen : nat;
  num_hidden_gen : nat;
  hypernetwork : HN;
  grad_estimator : GE;
  data_train : option (Loader data);
  data_test : option (Loader data);
  uncertainty_fn : option (HN -> nat -> nat -> bool -> (Q * Q) * HN);
  plot_fn : option plotter;
  best_test_acc : fnum;
  best_test_loss : fnum;
  prefix : string;
  trace : list event
}.

Definition set_hypernetwork (v : HN) (self : Trainer) : Trainer :=
  {| s := s self;
     z := z self;
     particles := particles self;
     target_arch := target_arch self;
     use_bn := use_bn self;
     use_bias := use_bias self;
     pretrain_mixer := pretrain_mixer self;
     dataset := dataset self;
     grad_type := grad_type self;
     epochs := epochs self;
     vote := vote self;
     test_ensemble := test_ensemble self;
     test_uncertainty := test_uncertainty self;
     hidden_w_gen := hidden_w_gen self;
     num_hidden_gen := num_hidden_gen self;
     hypernetwork := v;
     grad_estimator := grad_estimator self;
     data_train := data_train self;
     data_test := data_test self;
     uncertainty_fn := uncertainty_fn self;
     plot_fn := plot_fn self;
     best_test_acc := best_test_acc self;
     best_test_loss := best_test_loss self;
     prefix := prefix self;
     trace := trace self |}.

Definition set_grad_estimator (v : GE) (self : Trainer) : Trainer :=
  {| s := s self;
     z := z self;
     particles := particles self;
     target_arch := target_arch self;
     use_bn := use_bn self;
     use_bias := use_bias self;
     pretrain_mixer := pretrain_mixer self;
     dataset := dataset self;
     grad_type := grad_type self;
     epochs := epochs self;
     vote := vote self;
     test_ensemble := test_ensemble self;
     test_uncertainty := test_uncertainty self;
     hidden_w_gen := hidden_w_gen self;
     num_hidden_gen := num_hidden_gen self;
     hypernetwork := hypernetwork self;
     grad_estimator := v;
     data_train := data_train self;
     data_test := data_test self;
     uncertainty_fn := uncertainty_fn self;
     plot_fn := plot_fn self;
     best_test_acc := best_test_acc self;
     best_test_loss := best_test_loss self;
     prefix := prefix self;
     trace := trace self |}.

Definition set_best_test_acc (v : fnum) (self : Trainer) : Trainer :=
  {| s := s self;
     z := z self;
     particles := particles self;
     target_arch := target_arch self;
     use_bn := use_bn self;
     use_bias := use_bias self;
     pretrain_mixer := pretrain_mixer self;
     dataset := dataset self;
     grad_type := grad_type self;
     epochs := epochs self;
     vote := vote self;
     test_ensemble := test_ensemble self;
     test_uncertainty := test_uncertainty self;
     hidden_w_gen := hidden_w_gen self;
     num_hidden_gen := num_hidden_gen self;
     hypernetwork := hypernetwork self;
     grad_estimator := grad_estimator self;
     data_train := data_train self;
     data_test := data_test self;
     uncertainty_fn := uncertainty_fn self;
     plot_fn := plot_fn self;
     best_test_acc := v;
     best_test_loss := best_test_loss self;
     prefix := prefix self;
     trace := trace self |}.

Definition set_best_test_loss (v : fnum) (self : Trainer) : Trainer :=
  {| s := s self;
     z := z self;
     particles := particles self;
     target_arch := target_arch self;
     use_bn := use_bn self;
     use_bias := use_bias self;
     pretrain_mixer := pretrain_mixer self;
     dataset := dataset self;
     grad_type := grad_type self;
     epochs := epochs self;
     vote := vote self;
     test_ensemble := test_ensemble self;
     test_uncertainty := test_uncertainty self;
     hidden_w_gen := hidden_w_gen self;
     num_hidden_gen := num_hidden_gen self;
     hypernetwork := hypernetwork self;
     grad_estimator := grad_estimator self;
     data_train := data_train self;
     data_test := data_test self;
     uncertainty_fn := uncertainty_fn self;
     plot_fn := plot_fn self;
     best_test_acc := best_test_acc self;
     best_test_loss := v;
     prefix := prefix self;
     trace := trace self |}.

Definition add_event (v : event) (self : Trainer) : Trainer :=
  {| s := s self;
     z := z self;
     particles := particles self;
     target_arch := target_arch self;
     use_bn := use_bn self;
     use_bias := use_bias self;
     pretrain_mixer := pretrain_mixer self;
     dataset := dataset self;
     grad_type := grad_type self;
     epochs := epochs self;
     vote := vote self;
     test_ensemble := test_ensemble self;
     test_uncertainty := test_uncertainty self;
     hidden_w_gen := hidden_w_gen self;
     num_hidden_gen := num_hidden_gen self;
     hypernetwork := hypernetwork self;
     grad_estimator := grad_estimator self;
     data_train := data_train self;
     data_test := data_test self;
     uncertainty_fn := uncertainty_fn self;
     plot_fn := plot_fn self;
     best_test_acc := best_test_acc self;
     best_test_loss := best_test_loss self;
     prefix := prefix self;
     trace := trace self ++ [v] |}.

(** *** The monad of the methods: state [self], exceptions *)

Definition M (A : Type) : Type := Trainer -> result (A * Trainer).

Definition ret {A} (a : A) : M A := fun self => Ok (a, self).

Definition bind {A B} (m : M A) (k : A -> M B) : M B :=
  fun self =>
    match m self with
    | Ok (a, self') => k a self'
    | Raise e => Raise e
    end.

Definition raise {A} (e : error) : M A := fun _ => Raise e.

Definition lift {A} (r : result A) : M A :=
  fun self => match r with Ok a => Ok (a, self) | Raise e => Raise e end.

Definition gets {A} (f : Trainer -> A) : M A := fun self => Ok (f self, self).

Definition emit (ev : event) : M unit := fun self => Ok (tt, add_event ev self).

(** Reading an attribute of [self] that may never have been set. *)
Definition get_attr {A} (f : Trainer -> option A) (name : string) : M A :=
  fun self =>
    match f self with
    | Some a => Ok (a, self)
    | None => Raise (AttributeError name)
    end.

(** A method call on [self.hypernetwork], logged as [ev]. *)
Definition hn_call {A} (f : HN -> A * HN) (ev : A -> event) : M A :=
  fun self =>
    let (a, hn) := f (hypernetwork self) in
    Ok (a, add_event (ev a) (set_hypernetwork hn self)).

Definition hn_do (f : HN -> HN) (ev : event) : M unit :=
  hn_call (fun hn => (tt, f hn)) (fun _ => ev).

Local Notation "x <- c1 ;; c2" := (bind c1 (fun x => c2))
  (at level 61, c1 at next level, right associativity).
Local Notation "c1 ;; c2" := (bind c1 (fun _ => c2))
  (at level 61, right associativity).

Fixpoint for_each {X} (l : list X) (body : X -> M unit) : M unit :=
  match l with
  | [] => ret tt
  | x :: rest => body x ;; for_each rest body
  end.

Definition enumerate {X} (l : list X) : list (nat * X) :=
  combine (seq 0 (List.length l)) l.

(** *** [__init__] *)

Definition str (n : nat) : string := NilZero.string_of_uint (Nat.to_uint n).

Definition __init__ (a : args.t) : result Trainer :=
  let hidden_layers := repeat (args.hidden_w_gen a) (args.num_hidden_gen a) in
  let hn := HyperNetwork
              {| hn_s_dim := args.s_dim a;
                 hn_z_dim := args.z_dim a;
                 hn_use_mixer := args.use_mixer a;
                 hn_noise_type := "normal";
                 hn_hidden_layers := hidden_layers;
                 hn_particles := args.num_particles a;
                 hn_use_bias := args.use_bias a;
                 hn_use_batchnorm := args.use_bn a;
                 hn_clear_bn_bias := true;
                 hn_target_arch := args.target_arch a |} in
  let hn := set_target_architecture hn in
  let hn := set_hypernetwork_mixer hn in
  let hn := set_hypernetwork_layers hn in
  let hn := print_architecture hn in
  let hn := attach_optimizers (5 # 1000) (1 # 10000) hn in
  let ge := GradientEstimatorStein (args.num_particles a) 1 (args.grad a) in
  let '(loaders, ufn, pfn) :=
    if String.eqb (args.dataset a) "mnist" then
      (Some load_mnist, Some eval_mnist_hypernetwork, Some plot_density_mnist)
    else if String.eqb (args.dataset a) "cifar" then
      (Some load_cifar, Some eval_cifar5_hypernetwork, Some plot_density_cifar)
    else (None, None, None) in
  Ok {| s := args.s_dim a;
        z := args.z_dim a;
        particles := args.num_particles a;
        target_arch := args.target_arch a;
        use_bn := args.use_bn a;
        use_bias := args.use_bias a;
        pretrain_mixer := args.pretrain_mixer a;
        dataset := args.dataset a;
        grad_type := args.grad a;
        epochs := 200;
        vote := args.vote a;
        test_ensemble := args.test_ensemble a;
        test_uncertainty := args.test_uncertainty a;
        hidden_w_gen := args.hidden_w_gen a;
        num_hidden_gen := args.num_hidden_gen a;
        hypernetwork := hn;
        grad_estimator := ge;
        data_train := option_map fst loaders;
        data_test := option_map snd loaders;
        uncertainty_fn := ufn;
        plot_fn := pfn;
        best_test_acc := Fin 0;
        best_test_loss := PInf;
        prefix := "figures/hypernet/" ++ args.grad a ++ "/"
                  ++ str (args.hidden_w_gen a) ++ "hidden/" ++ args.dataset a;
        trace := [EvManualSeed 8734%Z; EvAttachOptimizers (5 # 1000) (1 # 10000)] |}.

(** *** [test] *)

(** The loop over [self.data_test]; [test_loss] and [correct] are the
    locals it accumulates into. *)
Fixpoint test_loop (ens_size : nat) (bs : list (data * list nat))
    (test_loss : Q) (correct : nat) : M (Q * nat) :=
  match bs with
  | [] => ret (test_loss, correct)
  | (d, target) :: rest =>
      lat <- hn_call sample_generator_input EvSample ;;
      th <- hn_call (sample_parameters lat) (EvGenerate lat) ;;
      hn_do (set_parameters_to_model th) (EvInstall th) ;;
      out <- hn_call (forward_model d) (fun _ => EvForward d) ;;
      vote_mode <- gets vote ;;
      r <- lift (score_batch vote_mode ens_size out target) ;;
      test_loop ens_size rest (test_loss + fst r) (correct + snd r)%nat
  end.

(** Lines 238-243. *)
Definition update_best (test_loss test_acc : fnum) : M unit :=
  fun self =>
    if flt test_loss (best_test_loss self) || fgt test_acc (best_test_acc self)
    then
      let self := add_event EvNewBest self in
      let self := if flt test_loss (best_test_loss self)
                  then set_best_test_loss test_loss self else self in
      let self := if fgt test_acc (best_test_acc self)
                  then set_best_test_acc test_acc self else self in
      Ok (tt, self)
    else Ok (tt, self).

Definition test (ens_size : nat) : M (Q * Q * nat) :=
  hn_do hn_eval EvEval ;;
  loader <- get_attr data_test "data_test" ;;
  r <- test_loop ens_size (batches loader) 0 0%nat ;;
  let (test_loss, correct) := r in
  let n := dataset_len loader in
  if Nat.eqb n 0 then raise ZeroDivisionError
  else
    let test_loss := test_loss / inject_Z (Z.of_nat n) in
    let test_acc := inject_Z (Z.of_nat correct) / inject_Z (Z.of_nat n) in
    hn_do hn_train EvTrain ;;
    update_best (Fin test_loss) (Fin test_acc) ;;
    ret (test_loss, test_acc, correct).

Definition evaluate_as_ensemble (ens_sizes : list nat) (epoch : nat) : M unit :=
  for_each ens_sizes (fun n_models =>
    r <- test n_models ;;
    let '(loss, acc, correct) := r in
    emit (EvPrintTest (epoch + 1) n_models loss acc correct)).

(** *** [train] *)

(** [self.grad_estimator.compute_gradients(outputs, theta, target)] *)
Definition compute_gradients_call (outputs : Tensor.tensor3) (th : theta)
    (target : list nat) : M (list Q) :=
  fun self =>
    let (l, ge) := compute_gradients outputs th target (grad_estimator self) in
    Ok (l, add_event (EvComputeGradients th) (set_grad_estimator ge self)).

(** [self.grad_estimator.apply_gradients()]: backpropagation into the
    generator's gradient accumulators. *)
Definition apply_gradients_call : M unit :=
  fun self =>
    let (ge, hn) := apply_gradients (grad_estimator self) (hypernetwork self) in
    Ok (tt, add_event EvApplyGradients
              (set_hypernetwork hn (set_grad_estimator ge self))).

(** The body of the loop over [self.data_train], lines 141-166. *)
Definition train_batch (epoch batch_idx : nat) (b : data * list nat) : M unit :=
  let (d, target) := b in
  lat <- hn_call sample_generator_input EvSample ;;
  th <- hn_call (sample_parameters lat) (EvGenerate lat) ;;
  hn_do (set_parameters_to_model th) (EvInstall th) ;;
  out <- hn_call (forward_model d) (fun _ => EvForward d) ;;
  let outputs := Tensor.transpose out in
  loss <- compute_gradients_call outputs th target ;;
  hn_do zero_grad EvZeroGrad ;;
  apply_gradients_call ;;
  hn_do update_step EvUpdateStep ;;
  let loss := Tensor.mean loss in
  if Nat.eqb (batch_idx mod 100) 0 then emit (EvLog epoch batch_idx loss)
  else ret tt.

(** Lines 175-195, one ensemble size. *)
Definition uncertainty_step (epoch ens_size : nat) : M unit :=
  f <- get_attr uncertainty_fn "uncertainty_fn" ;;
  sd <- gets s ;;
  _ <- hn_call (fun hn => f hn ens_size sd false)
               (fun _ => EvUncertainty ens_size false) ;;
  f <- get_attr uncertainty_fn "uncertainty_fn" ;;
  sd <- gets s ;;
  _ <- hn_call (fun hn => f hn ens_size sd true)
               (fun _ => EvUncertainty ens_size true) ;;
  p <- get_attr plot_fn "plot_fn" ;;
  emit (EvPlot p ens_size (epoch + 1)).

(** Lines 168-171. *)
Definition ens_sizes_of (self : Trainer) : list nat :=
  if test_ensemble self then [1; 5; 10; particles self]%nat
  else [particles self].

(** One iteration of the loop over the epochs. *)
Definition train_epoch (epoch : nat) : M unit :=
  loader <- get_attr data_train "data_train" ;;
  for_each (enumerate (batches loader))
           (fun ib => train_batch epoch (fst ib) (snd ib)) ;;
  ens_sizes <- gets ens_sizes_of ;;
  evaluate_as_ensemble ens_sizes epoch ;;
  tu <- gets test_uncertainty ;;
  if tu then
    p <- gets particles ;;
    for_each [5; 10; p]%nat (uncertainty_step epoch)
  else ret tt.

Definition train : M unit :=
  n <- gets epochs ;;
  for_each (seq 0 n) train_epoch.

(** The script: [trainer = HyperNetworkTrainer(args); trainer.train()]. *)
Definition main (a : args.t) : result (unit * Trainer) :=
  rbind (__init__ a) train.


(** *** The effect of a run of collaborator calls

    [self] after calls that left the hypernetwork in state [hn], the
    estimator in state [ge], and appended [evs] to the trace. *)
Definition advance (hn : HN) (ge : GE) (evs : list event) (self : Trainer) : Trainer :=
  {| s := s self;
     z := z self;
     particles := particles self;
     target_arch := target_arch self;
     use_bn := use_bn self;
     use_bias := use_bias self;
     pretrain_mixer := pretrain_mixer self;
     dataset := dataset self;
     grad_type := grad_type self;
     epochs := epochs self;
     vote := vote self;
     test_ensemble := test_ensemble self;
     test_uncertainty := test_uncertainty self;
     hidden_w_gen := hidden_w_gen self;
     num_hidden_gen := num_hidden_gen self;
     hypernetwork := hn;
     grad_estimator := ge;
     data_train := data_train self;
     data_test := data_test self;
     uncertainty_fn := uncertainty_fn self;
     plot_fn := plot_fn self;
     best_test_acc := best_test_acc self;
     best_test_loss := best_test_loss self;
     prefix := prefix self;
     trace := trace self ++ evs |}.

(** One pass of the sample / generate / install / forward sequence: the
    latent drawn, the particles generated from it, the batch and the
    [B, N, D] outputs. *)
Record pass : Type := mkPass {
  p_lat : latent;
  p_th : theta;
  p_data : data;
  p_target : list nat;
  p_out : Tensor.tensor3
}.

(** The passes that a loop over the batches [bs] makes when it starts with
    the hypernetwork in state [hn], and the state it leaves. *)
Fixpoint forward_passes (hn : HN) (bs : list (data * list nat)) : list pass * HN :=
  match bs with
  | [] => ([], hn)
  | (d, target) :: rest =>
      let (lat, hn1) := sample_generator_input hn in
      let (th, hn2) := sample_parameters lat hn1 in
      let hn3 := set_parameters_to_model th hn2 in
      let (out, hn4) := forward_model d hn3 in
      let (ps, hn') := forward_passes hn4 rest in
      (mkPass lat th d target out :: ps, hn')
  end.

Definition pass_events (p : pass) : list event :=
  [EvSample (p_lat p); EvGenerate (p_lat p) (p_th p); EvInstall (p_th p);
   EvForward (p_data p)].

(** The scores of the passes of one evaluation, in order; the first
    exception wins. *)
Definition score_passes (vote_mode : string) (ens_size : nat) (ps : list pass)
  : result (list (Q * nat)) :=
  rmap (fun p => score_batch vote_mode ens_size (p_out p) (p_target p)) ps.

(** *** Vocabulary of the properties *)

(** The best metrics are the same in [self'] as in [self]. *)
Definition best_same (self self' : Trainer) : Prop :=
  best_test_loss self' = best_test_loss self /\
  best_test_acc self' = best_test_acc self.

(** From [self] to [self'] the best loss did not go up and the best
    accuracy did not go down. *)
Definition best_improves (self self' : Trainer) : Prop :=
  fle (best_test_loss self') (best_test_loss self) /\
  fle (best_test_acc self) (best_test_acc self').

(** The particles of pass [p] were generated from a latent drawn in that
    pass, and its outputs computed with those particles installed. *)
Definition fresh_pass (p : pass) : Prop :=
  exists hn hn1 hn2 hn4,
    sample_generator_input hn = (p_lat p, hn1) /\
    sample_parameters (p_lat p) hn1 = (p_th p, hn2) /\
    forward_model (p_data p) (set_parameters_to_model (p_th p) hn2) = (p_out p, hn4).

(** The average over all the examples of the passes of the per-example
    loss, for a test set of [n] examples. *)
Definition per_example_average (ens_size : nat) (ps : list pass) (n : nat) : Q :=
  Tensor.Qsum (flat_map (fun p => per_example_losses ens_size (p_out p) (p_target p)) ps)
  / inject_Z (Z.of_nat n).

(** A method relates the state it starts from to the state it returns
    in. *)
Definition respects {A} (R : Trainer -> Trainer -> Prop) (m : M A) : Prop :=
  forall self a self', m self = Ok (a, self') -> R self self'.

(** *** Reading the state and the trace *)

(** The attributes that [__init__] sets and no method assigns again. *)
Definition config (self : Trainer) :=
  (s self,
   z self,
   particles self,
   target_arch self,
   use_bn self,
   use_bias self,
   pretrain_mixer self,
   dataset self,
   grad_type self,
   epochs self,
   vote self,
   test_ensemble self,
   test_uncertainty self,
   hidden_w_gen self,
   num_hidden_gen self,
   data_train self,
   data_test self,
   uncertainty_fn self,
   plot_fn self,
   prefix self).

Definition config_same (self self' : Trainer) : Prop :=
  config self' = config self.

(** The number of examples that the batches of a loader hold. *)
Definition n_examples (bs : list (data * list nat)) : nat :=
  list_sum (map (fun b => List.length (snd b)) bs).

Definition is_update_step (ev : event) : bool :=
  match ev with EvUpdateStep => true | _ => false end.

Definition is_sample (ev : event) : bool :=
  match ev with EvSample _ => true | _ => false end.

(** The calls that belong to training: the estimator's, the optimizer's
    and the statistics line. *)
Definition is_training_call (ev : event) : bool :=
  match ev with
  | EvComputeGradients _ | EvZeroGrad | EvApplyGradients | EvUpdateStep
  | EvLog _ _ _ => true
  | _ => false
  end.

(** The batch indices of the statistics lines of a trace. *)
Definition logged_indices (evs : list event) : list nat :=
  flat_map (fun ev => match ev with EvLog _ i _ => [i] | _ => [] end) evs.

(** The (epoch, ensemble size) pairs of the test lines of a trace. *)
Definition printed_sizes (evs : list event) : list (nat * nat) :=
  flat_map (fun ev => match ev with EvPrintTest e n _ _ _ => [(e, n)] | _ => [] end) evs.

(** The loop over [self.data_train] of one epoch, lines 140-166. *)
Definition train_loop (epoch : nat) (bs : list (data * list nat)) : M unit :=
  for_each (enumerate bs) (fun ib => train_batch epoch (fst ib) (snd ib)).

(** A property of the state that a method keeps when it returns. *)
Definition preserves {A} (I : Trainer -> Prop) (m : M A) : Prop :=
  forall self a self', I self -> m self = Ok (a, self') -> I self'.

(** The test loader yields no more examples than [len(dataset)], the best
    accuracy is a fraction between 0 and 1, and the best loss is a number
    or still infinite. *)
Definition metrics_in_range (self : Trainer) : Prop :=
  (forall loader, data_test self = Some loader ->
     (n_examples (batches loader) <= dataset_len loader)%nat) /\
  (exists q, best_test_acc self = Fin q /\ 0 <= q /\ q <= 1) /\
  (best_test_loss self = PInf \/ exists l, best_test_loss self = Fin l).

End Trainer.

(** ** A small concrete instance

    Collaborators simple enough to run the trainer inside Rocq: the
    hypernetwork state counts the latent draws made so far and remembers
    the particles installed last, a latent and the particles generated
    from it are numbers, and a data batch carries the [B, N, D] logits
    that the forward pass returns for it. *)

Module Toy.

Import Tensor.

(** A rational stand-in for softmax: shift the row by its minimum and
    normalise, which gives positive entries that sum to one and keeps
    their order. *)
Definition linear_softmax (row : vec) : vec :=
  let m := fold_right Qmin (hd 0 row) row in
  let shifted := map (fun x => x - m + 1) row in
  map (fun y => y / Qsum shifted) shifted.

#[export] Instance functional : Functional :=
  {| softmax := linear_softmax;
     nll := fun row t => 1 - nth t (linear_softmax row) 0 |}.

Definition HN : Type := (nat * nat)%type.

#[export] Instance hypernetwork_api : HyperNetworkAPI HN nat nat tensor3 :=
  {| HyperNetwork := fun _ => (0, 0)%nat;
     set_target_architecture := fun hn => hn;
     set_hypernetwork_mixer := fun hn => hn;
     set_hypernetwork_layers := fun hn => hn;
     print_architecture := fun hn => hn;
     attach_optimizers := fun _ _ hn => hn;
     sample_generator_input := fun hn => (fst hn, (S (fst hn), snd hn));
     sample_parameters := fun lat hn => (lat, hn);
     set_parameters_to_model := fun th hn => (fst hn, th);
     forward_model := fun d hn => (d, hn);
     zero_grad := fun hn => hn;
     update_step := fun hn => hn;
     hn_eval := fun hn => hn;
     hn_train := fun hn => hn |}.

#[export] Instance estimator_api : GradientEstimatorAPI unit HN nat :=
  {| GradientEstimatorStein := fun _ _ _ => tt;
     compute_gradients := fun _ _ _ ge => ([1 # 2], ge);
     apply_gradients := fun ge hn => (ge, hn) |}.

(** Two examples scored by three members over two classes; the members'
    labels are [0, 0, 1] for the first example and [1, 0, 1] for the
    second. *)
Definition batch1 : tensor3 * list nat :=
  ([ [ [2; 1]; [3; 0]; [0; 5] ];
     [ [0; 1]; [1; 0]; [1; 3] ] ], [0; 1]%nat).

(** One example, the members' labels are [0, 1, 1]. *)
Definition batch2 : tensor3 * list nat :=
  ([ [ [1; 0]; [0; 1]; [0; 2] ] ], [0%nat]).

Definition loader : Loader tensor3 :=
  {| batches := [batch1; batch2]; dataset_len := 3 |}.

#[export] Instance data_api : DataAPI HN tensor3 :=
  {| load_mnist := (loader, loader);
     load_cifar := (loader, loader);
     eval_mnist_hypernetwork := fun hn _ _ _ => ((0, 0), hn);
     eval_cifar5_hypernetwork := fun hn _ _ _ => ((0, 0), hn) |}.

(** The default command line with three particles, and with the ensemble
    ablation and the uncertainty plots switched on. *)
Definition args3 (dataset vote : string) : args.t :=
  {| args.s_dim := 512; args.z_dim := 32; args.num_hidden_gen := 2;
     args.hidden_w_gen := 32; args.num_particles := 3;
     args.target_arch := "lenet"; args.grad := "svgd"; args.resume := false;
     args.dataset := dataset; args.use_bias := true; args.use_mixer := false;
     args.pretrain_mixer := false; args.use_bn := false;
     args.test_ensemble := true; args.test_uncertainty := true;
     args.vote := vote |}.

(** One example scored by seven members: the first three choose label 0,
    the last four label 1. *)
Definition seven_members : tensor3 :=
  [ [ [1; 0]; [1; 0]; [1; 0]; [0; 1]; [0; 1]; [0; 1]; [0; 1] ] ].

(** The trainer that the constructor returns for the MNIST loaders and
    the hard vote. *)
Definition trainer : @Trainer HN unit nat nat tensor3 :=
  unwrap (__init__ (args3 "mnist" "hard")).

(** The trainer for a vote mode the code does not know. *)
Definition trainer_majority : @Trainer HN unit nat nat tensor3 :=
  unwrap (__init__ (args3 "mnist" "majority")).

(** Loaders whose test set is empty, and the trainer built on them. *)
Definition empty_loader : Loader tensor3 :=
  {| batches := []; dataset_len := 0 |}.

Definition data_api_empty : DataAPI HN tensor3 :=
  {| load_mnist := (loader, empty_loader);
     load_cifar := (loader, empty_loader);
     eval_mnist_hypernetwork := fun hn _ _ _ => ((0, 0), hn);
     eval_cifar5_hypernetwork := fun hn _ _ _ => ((0, 0), hn) |}.

Definition trainer_empty : @Trainer HN unit nat nat tensor3 :=
  unwrap (@__init__ HN unit nat nat tensor3 hypernetwork_api estimator_api
            data_api_empty (args3 "mnist" "hard")).

End Toy.

(** * Properties *)

(** ** The mode of a row of labels *)

Section ModeFacts.

Import Tensor.

Local Abbreviation count := (count_occ Nat.eq_dec).

Lemma sorted_head_le (x : nat) (l : list nat) :
  StronglySorted le (x :: l) -> forall v, In v l -> (x <= v)%nat.
Proof.
  intros Hs v Hv. inversion Hs as [|? ? _ Hall]; subst.
  rewrite Forall_forall in Hall. now apply Hall.
Qed.

Lemma sorted_run_end (x y : nat) (l : list nat) :
  StronglySorted le (x :: y :: l) -> x <> y -> count (y :: l) x = 0%nat.
Proof.
  intros Hs Hxy. apply count_occ_not_In. intros Hin.
  assert (Hle : (x <= y)%nat) by (apply (sorted_head_le Hs); now left).
  inversion Hs as [|? ? Hs' _]; subst.
  destruct Hin as [->|Hin]; [congruence|].
  pose proof (sorted_head_le Hs' _ Hin). lia.
Qed.

Lemma mode_scan_spec (rest : list nat) :
  StronglySorted le rest ->
  forall tf m mf,
    let r := mode_scan rest tf m mf in
    (r = m /\ forall v, In v rest -> (pending rest tf v <= mf)%nat) \/
    (In r rest /\ (mf < pending rest tf r)%nat /\
     forall v, In v rest ->
       (pending rest tf v <= pending rest tf r)%nat /\
       (pending rest tf v = pending rest tf r -> (r <= v)%nat)).
Proof.
  induction rest as [|x rest IH]; intros Hs tf m mf; cbn zeta.
  - left. split; [reflexivity|]. intros v [].
  - assert (Hs' : StronglySorted le rest) by (inversion Hs; assumption).
    specialize (IH Hs').
    destruct rest as [|y rest'].
    + (* the last run ends here *)
      cbn [mode_scan].
      destruct (Nat.ltb_spec mf (S tf)) as [Hlt|Hge].
      * right. cbn. rewrite Nat.eqb_refl.
        destruct (Nat.eq_dec x x) as [_|]; [|congruence].
        split; [now left|]. split; [lia|].
        intros v [Hv|[]]. subst v. rewrite Nat.eqb_refl.
        destruct (Nat.eq_dec x x); [|congruence]. lia.
      * left. cbn. split; [reflexivity|].
        intros v [Hv|[]]. subst v. rewrite Nat.eqb_refl.
        destruct (Nat.eq_dec x x); [|congruence]. lia.
    + destruct (Nat.eqb_spec x y) as [<-|Hxy].
      * (* the run of [x] goes on *)
        assert (Hstep : mode_scan (x :: x :: rest') tf m mf
                        = mode_scan (x :: rest') (S tf) m mf).
        { cbn [mode_scan]. now rewrite Nat.eqb_refl. }
        rewrite Hstep.
        assert (Hp : forall v, pending (x :: x :: rest') tf v
                               = pending (x :: rest') (S tf) v).
        { intros v. unfold pending. cbn [count_occ].
          destruct (Nat.eq_dec x v) as [->|Hne].
          - rewrite Nat.eqb_refl. lia.
          - apply Nat.eqb_neq in Hne. rewrite Hne. lia. }
        assert (Hin : forall v, In v (x :: x :: rest') <-> In v (x :: rest')).
        { intros v. cbn. tauto. }
        destruct (IH (S tf) m mf) as [[Hr Hall]|[Hr [Hgt Hall]]].
        -- left. split; [exact Hr|]. intros v Hv. rewrite Hp.
           apply Hall. now apply Hin.
        -- right. split; [apply Hin; exact Hr|]. rewrite Hp.
           split; [exact Hgt|]. intros v Hv. rewrite Hp.
           apply Hall. now apply Hin.
      * (* the run of [x] ends, [y] starts a new one *)
        assert (Hx0 : count (y :: rest') x = 0%nat)
          by (apply sorted_run_end; assumption).
        assert (Hpx : pending (x :: y :: rest') tf x = S tf).
        { unfold pending. cbn [count_occ] in *.
          destruct (Nat.eq_dec x x); [|congruence].
          rewrite Nat.eqb_refl.
          destruct (Nat.eq_dec y x); [congruence|]. lia. }
        assert (Hpv : forall v, v <> x ->
                  pending (x :: y :: rest') tf v = pending (y :: rest') 0 v).
        { intros v Hv. unfold pending.
          change (count (x :: y :: rest') v)
            with (if Nat.eq_dec x v then S (count (y :: rest') v)
                  else count (y :: rest') v).
          destruct (Nat.eq_dec x v); [congruence|].
          destruct (Nat.eqb_spec x v); [congruence|].
          destruct (Nat.eqb y v); lia. }
        assert (Hnin : forall v, In v (y :: rest') -> v <> x).
        { intros v Hv ->. apply (count_occ_not_In Nat.eq_dec) in Hx0.
          contradiction. }
        assert (Hxle : forall v, In v (y :: rest') -> (x <= v)%nat)
          by (apply sorted_head_le; assumption).
        assert (Hstep : mode_scan (x :: y :: rest') tf m mf
                        = if Nat.ltb mf (S tf)
                          then mode_scan (y :: rest') 0 x (S tf)
                          else mode_scan (y :: rest') 0 m mf).
        { cbn [mode_scan]. apply Nat.eqb_neq in Hxy. now rewrite Hxy. }
        rewrite Hstep.
        destruct (Nat.ltb_spec mf (S tf)) as [Hlt|Hge].
        -- destruct (IH 0%nat x (S tf)) as [[Hr Hall]|[Hr [Hgt Hall]]].
           ++ right. rewrite Hr, Hpx. split; [now left|]. split; [lia|].
              intros v [Hv|Hv]; [subst v; rewrite Hpx; lia|].
              rewrite (Hpv v (Hnin v Hv)). specialize (Hall v Hv).
              split; [lia|]. intros _. now apply Hxle.
           ++ right. split; [now right|].
              rewrite (Hpv _ (Hnin _ Hr)). split; [lia|].
              intros v [Hv|Hv]; [subst v; rewrite Hpx; lia|].
              rewrite (Hpv v (Hnin v Hv)). now apply Hall.
        -- destruct (IH 0%nat m mf) as [[Hr Hall]|[Hr [Hgt Hall]]].
           ++ left. split; [exact Hr|].
              intros v [Hv|Hv]; [subst v; rewrite Hpx; lia|].
              rewrite (Hpv v (Hnin v Hv)). now apply Hall.
           ++ right. split; [now right|].
              rewrite (Hpv _ (Hnin _ Hr)). split; [exact Hgt|].
              intros v [Hv|Hv]; [subst v; rewrite Hpx; lia|].
              rewrite (Hpv v (Hnin v Hv)). now apply Hall.
Qed.

End ModeFacts.

Section VoteFacts.

Import Tensor.

Local Abbreviation count := (count_occ Nat.eq_dec).

Lemma sort_strongly_sorted (row : list nat) :
  StronglySorted le (LabelSort.sort row).
Proof.
  assert (Htrans : Relations_1.Transitive (fun x y => is_true (LabelOrder.leb x y))).
  { intros a b c Hab Hbc. unfold is_true, LabelOrder.leb in *.
    rewrite Nat.leb_le in *. lia. }
  pose proof (LabelSort.StronglySorted_sort row Htrans) as Hs.
  induction Hs as [|a l _ IH Hall]; constructor; [exact IH|].
  rewrite Forall_forall in *. intros v Hv. specialize (Hall v Hv).
  unfold is_true, LabelOrder.leb in Hall. now apply Nat.leb_le.
Qed.

(** [mode] returns a label of the row that occurs most often, and the
    smallest such label. *)
Lemma mode_spec (row : list nat) :
  row <> [] ->
  In (mode row) row /\
  (forall v, (count row v <= count row (mode row))%nat) /\
  (forall v, count row v = count row (mode row) -> (mode row <= v)%nat).
Proof.
  intros Hne.
  pose proof (LabelSort.Permuted_sort row) as Hperm.
  pose proof (proj1 (Permutation_count_occ Nat.eq_dec _ _) Hperm) as Hcnt.
  assert (Hp0 : forall l v, pending l 0 v = count l v).
  { intros l v. unfold pending. destruct l as [|x l]; [lia|].
    destruct (Nat.eqb x v); lia. }
  unfold mode.
  destruct (mode_scan_spec (sort_strongly_sorted row) 0 0 0)
    as [[_ Hall]|[Hr [Hgt Hall]]].
  - exfalso. destruct row as [|x row]; [congruence|].
    assert (Hin : In x (LabelSort.sort (x :: row)))
      by (eapply Permutation_in; [exact Hperm|now left]).
    specialize (Hall x Hin). rewrite Hp0 in Hall.
    apply (count_occ_In Nat.eq_dec) in Hin. lia.
  - set (r := mode_scan (LabelSort.sort row) 0 0 0) in *.
    rewrite Hp0 in Hgt.
    assert (Hrin : In r row)
      by (eapply Permutation_in; [apply Permutation_sym; exact Hperm|exact Hr]).
    split; [exact Hrin|].
    assert (Hdom : forall v, In v row ->
              (count row v <= count row r)%nat /\
              (count row v = count row r -> (r <= v)%nat)).
    { intros v Hv. rewrite !Hcnt.
      assert (Hv' : In v (LabelSort.sort row))
        by (eapply Permutation_in; [exact Hperm|exact Hv]).
      specialize (Hall v Hv'). now rewrite !Hp0 in Hall. }
    split.
    + intros v. destruct (in_dec Nat.eq_dec v row) as [Hv|Hv].
      * now apply Hdom.
      * apply (count_occ_not_In Nat.eq_dec) in Hv. lia.
    + intros v Hv. apply Hdom; [|exact Hv].
      apply (count_occ_In Nat.eq_dec). rewrite Hv, Hcnt. lia.
Qed.

Lemma mode_singleton (x : nat) : mode [x] = x.
Proof. reflexivity. Qed.

(** *** Transposition of a rectangular tensor *)

Lemma transpose_length {A} (rows : list (list A)) (B : nat) :
  rows <> [] -> Forall (fun r => List.length r = B) rows ->
  List.length (transpose rows) = B.
Proof.
  induction rows as [|r rs IH]; intros Hne Hall; [congruence|].
  inversion Hall as [|? ? Hr Hrs]; subst.
  destruct rs as [|r' rs'].
  - cbn. now rewrite length_map.
  - change (transpose (r :: r' :: rs'))
      with (map (fun p => fst p :: snd p) (combine r (transpose (r' :: rs')))).
    rewrite length_map, length_combine, IH; [|congruence|exact Hrs].
    inversion Hrs; subst. lia.
Qed.

Lemma transpose_nth {A} (d : A) (rows : list (list A)) (B b : nat) :
  rows <> [] -> Forall (fun r => List.length r = B) rows -> (b < B)%nat ->
  nth b (transpose rows) [] = map (fun r => nth b r d) rows.
Proof.
  induction rows as [|r rs IH]; intros Hne Hall Hb; [congruence|].
  inversion Hall as [|? ? Hr Hrs]; subst.
  destruct rs as [|r' rs'].
  - cbn. rewrite (nth_indep _ [] [d]) by (now rewrite length_map).
    now rewrite (map_nth (fun x => [x])).
  - change (transpose (r :: r' :: rs'))
      with (map (fun p => fst p :: snd p) (combine r (transpose (r' :: rs')))).
    assert (Hlen : List.length (transpose (r' :: rs')) = List.length r)
      by (apply transpose_length; [congruence|exact Hrs]).
    rewrite (nth_indep _ [] ((fun p => fst p :: snd p) (d, [])))
      by (rewrite length_map, length_combine; lia).
    rewrite (map_nth (fun p => fst p :: snd p)).
    rewrite combine_nth by (symmetry; exact Hlen).
    cbn [fst snd map]. f_equal.
    apply IH; [congruence|exact Hrs|exact Hb].
Qed.

(** *** [argmax] returns the first maximal index *)

Lemma argmax_from_spec (l : list Q) :
  forall (pre : list Q) (bi : nat),
    first_max pre bi ->
    first_max (pre ++ l) (argmax_from bi (nth bi pre 0) (List.length pre) l).
Proof.
  induction l as [|x l IH]; intros pre bi Hfm.
  - cbn. now rewrite app_nil_r.
  - cbn [argmax_from]. destruct Hfm as [Hbi [Hmax Hfirst]].
    assert (Hpre : pre ++ x :: l = (pre ++ [x]) ++ l)
      by (now rewrite <- app_assoc).
    assert (Hlen : S (List.length pre) = List.length (pre ++ [x]))
      by (rewrite length_app; cbn; lia).
    assert (Hold : forall j, (j < List.length pre)%nat ->
                     nth j (pre ++ [x]) 0 = nth j pre 0)
      by (intros j Hj; now apply app_nth1).
    assert (Hnew : nth (List.length pre) (pre ++ [x]) 0 = x).
    { rewrite app_nth2 by lia. now rewrite Nat.sub_diag. }
    destruct (Qlt_bool (nth bi pre 0) x) eqn:E.
    + apply Qlt_bool_iff in E.
      assert (Hfm : first_max (pre ++ [x]) (List.length pre));
        [|specialize (IH _ _ Hfm); rewrite Hnew, <- Hlen, <- Hpre in IH; exact IH].
      split; [rewrite <- Hlen; lia|]. rewrite Hnew. split.
      * intros j Hj. rewrite <- Hlen in Hj.
        destruct (Nat.eq_dec j (List.length pre)) as [->|Hne].
        -- rewrite Hnew. apply Qle_refl.
        -- rewrite Hold by lia. apply Qlt_le_weak.
           eapply Qle_lt_trans; [apply Hmax; lia|exact E].
      * intros j Hj. rewrite Hold by lia.
        eapply Qle_lt_trans; [apply Hmax; lia|exact E].
    + assert (Hle : x <= nth bi pre 0).
      { apply Qnot_lt_le. intros Hlt. apply Qlt_bool_iff in Hlt. congruence. }
      assert (Hfm : first_max (pre ++ [x]) bi);
        [|specialize (IH _ _ Hfm);
          rewrite (Hold bi Hbi), <- Hlen, <- Hpre in IH; exact IH].
      split; [rewrite <- Hlen; lia|]. rewrite (Hold bi Hbi). split.
      * intros j Hj. rewrite <- Hlen in Hj.
        destruct (Nat.eq_dec j (List.length pre)) as [->|Hne].
        -- now rewrite Hnew.
        -- rewrite Hold by lia. apply Hmax. lia.
      * intros j Hj. rewrite Hold by lia. now apply Hfirst.
Qed.

Lemma argmax_first_max (row : vec) (i : nat) :
  argmax row = Ok i -> first_max row i.
Proof.
  destruct row as [|x r]; cbn [argmax]; intros H; [discriminate|].
  inversion H; subst. clear H.
  apply (argmax_from_spec r (pre := [x]) (bi := 0%nat)).
  split; [cbn; lia|]. split.
  - intros j Hj. cbn in Hj. assert (j = 0%nat) as -> by lia. apply Qle_refl.
  - intros j Hj. lia.
Qed.

Lemma first_max_unique (row : vec) (i i' : nat) :
  first_max row i -> first_max row i' -> i = i'.
Proof.
  intros [Hi [Hmax Hfirst]] [Hi' [Hmax' Hfirst']].
  destruct (Nat.lt_trichotomy i i') as [Hlt|[Heq|Hgt]]; [|exact Heq|].
  - exfalso. specialize (Hfirst' i Hlt). specialize (Hmax i' Hi').
    apply (Qlt_irrefl (nth i row 0)).
    eapply Qlt_le_trans; eassumption.
  - exfalso. specialize (Hfirst i' Hgt). specialize (Hmax' i Hi).
    apply (Qlt_irrefl (nth i' row 0)).
    eapply Qlt_le_trans; eassumption.
Qed.

Lemma first_max_argmax (row : vec) (i : nat) :
  first_max row i -> argmax row = Ok i.
Proof.
  intros Hfm. destruct row as [|x r].
  - destruct Hfm as [Hi _]. cbn in Hi. lia.
  - cbn [argmax]. f_equal.
    eapply first_max_unique; [|exact Hfm].
    apply argmax_first_max. reflexivity.
Qed.

End VoteFacts.

(** ** Voting *)

Section VoteTheorems.

Import Tensor.

Context {FN : Functional}.

Local Abbreviation count := (count_occ Nat.eq_dec).

Lemma rmap_length {A B} (f : A -> result B) (l : list A) (l' : list B) :
  rmap f l = Ok l' -> List.length l' = List.length l.
Proof.
  revert l'. induction l as [|x xs IH]; intros l' H; cbn in H.
  - now inversion H.
  - destruct (f x) as [y|e]; cbn in H; [|discriminate].
    destruct (rmap f xs) as [ys|e]; cbn in H; [|discriminate].
    inversion H; subst. cbn. now rewrite (IH ys).
Qed.

Lemma rmap_Forall2 {A B} (f : A -> result B) (l : list A) (l' : list B) :
  rmap f l = Ok l' -> Forall2 (fun x y => f x = Ok y) l l'.
Proof.
  revert l'. induction l as [|x xs IH]; intros l' H; cbn in H.
  - inversion H. constructor.
  - destruct (f x) as [y|e] eqn:Hx; cbn in H; [|discriminate].
    destruct (rmap f xs) as [ys|e]; cbn in H; [|discriminate].
    inversion H; subst. constructor; [exact Hx|now apply IH].
Qed.

(** Each member's row of labels is as long as its block of logits. *)
Lemma member_labels_rectangular (outputs : tensor3) (labels : list (list nat)) (B : nat) :
  Forall (fun m => List.length m = B) outputs ->
  rmap (rmap argmax) (map (map softmax) outputs) = Ok labels ->
  Forall (fun r => List.length r = B) labels.
Proof.
  intros Hrect H. apply rmap_Forall2 in H.
  remember (map (map softmax) outputs) as probs eqn:Hp.
  revert outputs Hrect Hp.
  induction H as [|p r ps rs Hpr _ IH]; intros outputs Hrect Hp; [constructor|].
  destruct outputs as [|m ms]; [discriminate|].
  cbn in Hp. inversion Hp; subst. inversion Hrect; subst.
  constructor; [|now apply (IH ms)].
  apply rmap_length in Hpr. now rewrite Hpr, length_map.
Qed.

(** C1. In 'hard' mode, for every batch and every sub-size [n], the vote of
    each example is the mode of the [n] members' argmax labels for that
    example: a label that most members chose and, among the labels chosen
    equally often, the lowest one.  Members predicting [0, 0, 1] give [0];
    members predicting [0, 1, 2] give the fixed label [0]. *)
Theorem hard_vote_is_lowest_majority_label
    (out : tensor3) (n B : nat) (labels : list (list nat)) :
  firstn n (transpose out) <> [] ->
  Forall (fun m => List.length m = B) (firstn n (transpose out)) ->
  rmap (rmap argmax) (map (map softmax) (firstn n (transpose out))) = Ok labels ->
  (exists votes,
      cast_vote "hard" (firstn n (transpose out)) = Ok votes /\
      List.length votes = B /\
      forall b, (b < B)%nat ->
        let member_labels := map (fun r => nth b r 0%nat) labels in
        let v := nth b votes 0%nat in
        v = mode member_labels /\
        In v member_labels /\
        (forall w, (count member_labels w <= count member_labels v)%nat) /\
        (forall w, count member_labels w = count member_labels v -> (v <= w)%nat)) /\
  mode [0; 0; 1]%nat = 0%nat /\
  mode [0; 1; 2]%nat = 0%nat.
Proof.
  intros Hne Hrect Hlab.
  split; [|split; reflexivity].
  assert (Hlne : labels <> []).
  { apply rmap_length in Hlab. rewrite length_map in Hlab.
    intros ->. destruct (firstn n (transpose out)); [congruence|discriminate]. }
  pose proof (member_labels_rectangular Hrect Hlab) as Hlrect.
  exists (mode0 labels). split; [|split].
  - unfold cast_vote. cbn. unfold vote_hard. now rewrite Hlab.
  - unfold mode0. rewrite length_map.
    now apply transpose_length.
  - intros b Hb member_labels v.
    assert (Hv : v = mode member_labels).
    { unfold v, mode0.
      rewrite (nth_indep _ 0%nat (mode []))
        by (rewrite length_map, (transpose_length Hlne Hlrect); exact Hb).
      rewrite (map_nth mode).
      now rewrite (transpose_nth 0%nat Hlne Hlrect Hb). }
    assert (Hmne : member_labels <> []).
    { unfold member_labels. destruct labels; [congruence|discriminate]. }
    rewrite Hv. split; [reflexivity|]. now apply mode_spec.
Qed.

Lemma Qdiv_one (x : Q) : x / inject_Z (Z.of_nat 1) = x.
Proof.
  destruct x as [a b]. unfold Qdiv, Qmult, Qinv. cbn.
  now rewrite Z.mul_1_r, Pos.mul_1_r.
Qed.

Lemma vote_soft_single (m : mat) :
  vote_soft [m] = rmap argmax (map softmax m).
Proof.
  unfold vote_soft, mean0. cbn [map List.length fold_left].
  f_equal. rewrite <- (map_id (map softmax m)) at 2.
  apply map_ext. intros row. rewrite <- (map_id row) at 2.
  apply map_ext. intros x. apply Qdiv_one.
Qed.

Lemma vote_hard_single (m : mat) :
  vote_hard [m] = rmap argmax (map softmax m).
Proof.
  unfold vote_hard. cbn [map rmap].
  destruct (rmap argmax (map softmax m)) as [l|e]; cbn; [|reflexivity].
  f_equal. unfold mode0. cbn [transpose]. rewrite map_map.
  rewrite <- (map_id l) at 2. apply map_ext. intros x. apply mode_singleton.
Qed.

(** With an order-preserving softmax the argmax of the probabilities is
    the argmax of the logits. *)
Lemma argmax_softmax (row : vec) :
  softmax_monotone -> argmax (softmax row) = argmax row.
Proof.
  intros Hm. destruct (Hm row) as [Hlen Hord].
  destruct (argmax row) as [i|e] eqn:E.
  - apply first_max_argmax. apply argmax_first_max in E.
    destruct E as [Hi [Hmax Hfirst]].
    split; [now rewrite Hlen|]. split.
    + intros j Hj. rewrite Hlen in Hj. apply Qnot_lt_le. intros Hlt.
      apply (Hord i j Hi Hj) in Hlt.
      apply (Qlt_irrefl (nth i row 0)).
      eapply Qlt_le_trans; [exact Hlt|now apply Hmax].
    + intros j Hj. apply Hord; [lia|exact Hi|now apply Hfirst].
  - destruct row as [|x r]; [|discriminate].
    cbn in Hlen. destruct (softmax []); [exact E|discriminate].
Qed.

Lemma rmap_argmax_softmax (m : mat) :
  softmax_monotone -> rmap argmax (map softmax m) = rmap argmax m.
Proof.
  intros Hm. induction m as [|row m IH]; [reflexivity|].
  cbn [map rmap]. now rewrite argmax_softmax, IH.
Qed.

(** Under that assumption both votes of a single member are the argmax of
    its logits, and the hard vote of any ensemble is the mode of the
    members' logit argmax. *)
Lemma votes_from_logits :
  softmax_monotone ->
  (forall m : mat, vote_soft [m] = rmap argmax m /\ vote_hard [m] = rmap argmax m) /\
  (forall outputs : tensor3,
      vote_hard outputs
      = rbind (rmap (rmap argmax) outputs) (fun preds => Ok (mode0 preds))).
Proof.
  intros Hm. split.
  - intros m. rewrite vote_soft_single, vote_hard_single.
    now rewrite rmap_argmax_softmax.
  - intros outputs. unfold vote_hard. f_equal.
    induction outputs as [|m ms IH]; [reflexivity|].
    cbn [map rmap]. now rewrite rmap_argmax_softmax, IH.
Qed.

(** C3. With an ensemble sub-size of 1 the soft vote and the hard vote
    return the same labels for every predictions tensor: each is the argmax
    of the single member's probabilities, example by example. *)
Theorem single_member_soft_hard_agree :
  (forall m : mat,
      vote_soft [m] = rmap argmax (map softmax m) /\
      vote_hard [m] = rmap argmax (map softmax m)) /\
  (forall out : tensor3,
      cast_vote "soft" (firstn 1 (transpose out))
      = cast_vote "hard" (firstn 1 (transpose out))) /\
  (forall (out : tensor3) (target : list nat),
      score_batch "soft" 1 out target = score_batch "hard" 1 out target).
Proof.
  assert (Hcast : forall out : tensor3,
             cast_vote "soft" (firstn 1 (transpose out))
             = cast_vote "hard" (firstn 1 (transpose out))).
  { intros out. unfold cast_vote. cbn [String.eqb Ascii.eqb Bool.eqb].
    cbn. destruct (transpose out) as [|m rest]; [reflexivity|].
    cbn [firstn]. now rewrite vote_soft_single, vote_hard_single. }
  split; [|split].
  - intros m. split; [apply vote_soft_single|apply vote_hard_single].
  - exact Hcast.
  - intros out target. unfold score_batch. now rewrite Hcast.
Qed.

End VoteTheorems.

(** ** The evaluation pass *)

Section TestFacts.

Import Tensor.

Context {HN GE latent theta data : Type}.
Context {HNA : HyperNetworkAPI HN latent theta data}
        {GEA : GradientEstimatorAPI GE HN theta}
        {DA : DataAPI HN data}
        {FN : Functional}.

Local Abbreviation Trainer := (@Trainer HN GE latent theta data).
Local Abbreviation event := (@event latent theta data).

Lemma advance_nil (self : Trainer) :
  advance (hypernetwork self) (grad_estimator self) [] self = self.
Proof. destruct self. unfold advance. cbn. now rewrite app_nil_r. Qed.

Lemma vote_advance (hn : HN) (ge : GE) (evs : list event) (self : Trainer) :
  vote (advance hn ge evs self) = vote self.
Proof. reflexivity. Qed.

Lemma data_test_advance (hn : HN) (ge : GE) (evs : list event) (self : Trainer) :
  data_test (advance hn ge evs self) = data_test self.
Proof. reflexivity. Qed.

Lemma hn_call_advance {A} (f : HN -> A * HN) (ev : A -> event)
    (hn : HN) (ge : GE) (evs : list event) (self : Trainer) :
  hn_call f ev (advance hn ge evs self)
  = Ok (fst (f hn), advance (snd (f hn)) ge (evs ++ [ev (fst (f hn))]) self).
Proof.
  unfold hn_call. cbn [hypernetwork advance]. destruct (f hn) as [a hn'].
  cbn [fst snd]. unfold add_event, set_hypernetwork, advance. cbn.
  now rewrite <- app_assoc.
Qed.

Lemma hn_do_advance (f : HN -> HN) (ev : event)
    (hn : HN) (ge : GE) (evs : list event) (self : Trainer) :
  hn_do f ev (advance hn ge evs self) = Ok (tt, advance (f hn) ge (evs ++ [ev]) self).
Proof. unfold hn_do. now rewrite hn_call_advance. Qed.

Lemma test_loop_advance (ens_size : nat) (bs : list (data * list nat)) :
  forall (tl : Q) (c : nat) (hn : HN) (ge : GE) (evs : list event) (self : Trainer),
    test_loop ens_size bs tl c (advance hn ge evs self)
    = match score_passes (vote self) ens_size (fst (forward_passes hn bs)) with
      | Ok scores =>
          Ok ((fold_left Qplus (map fst scores) tl,
               fold_left Nat.add (map snd scores) c),
              advance (snd (forward_passes hn bs)) ge
                      (evs ++ flat_map pass_events (fst (forward_passes hn bs))) self)
      | Raise e => Raise e
      end.
Proof.
  induction bs as [|[d target] rest IH]; intros tl c hn ge evs self.
  - cbn. unfold ret. now rewrite app_nil_r.
  - cbn [test_loop forward_passes]. unfold bind at 1.
    rewrite hn_call_advance.
    destruct (sample_generator_input hn) as [lat hn1]. cbn [fst snd].
    unfold bind at 1. rewrite hn_call_advance.
    destruct (sample_parameters lat hn1) as [th hn2]. cbn [fst snd].
    unfold bind at 1. rewrite hn_do_advance.
    unfold bind at 1. rewrite hn_call_advance.
    destruct (forward_model d (set_parameters_to_model th hn2)) as [out hn4].
    cbn [fst snd].
    unfold bind at 1, gets at 1. unfold bind at 1, lift at 1.
    rewrite vote_advance.
    destruct (forward_passes hn4 rest) as [ps hn'] eqn:Hfp.
    cbn [fst snd score_passes rmap p_out p_target].
    destruct (score_batch (vote self) ens_size out target) as [[l k]|e];
      cbn [rbind]; [|reflexivity].
    rewrite IH, Hfp. cbn [fst snd].
    fold (score_passes (vote self) ens_size ps).
    destruct (score_passes (vote self) ens_size ps) as [scores|e];
      cbn [rbind]; [|reflexivity].
    cbn [map fold_left flat_map pass_events p_lat p_th p_data fst snd].
    repeat rewrite <- app_assoc. reflexivity.
Qed.

(** The whole of [test], once the pass over the test loader is known. *)
Lemma test_unfold (ens_size : nat) (self : Trainer) :
  test ens_size self
  = match data_test self with
    | None => Raise (AttributeError "data_test")
    | Some loader =>
        let fp := forward_passes (hn_eval (hypernetwork self)) (batches loader) in
        match score_passes (vote self) ens_size (fst fp) with
        | Raise e => Raise e
        | Ok scores =>
            let correct := fold_left Nat.add (map snd scores) 0%nat in
            let n := dataset_len loader in
            if Nat.eqb n 0 then Raise ZeroDivisionError
            else
              let test_loss := Qsum (map fst scores) / inject_Z (Z.of_nat n) in
              let test_acc := inject_Z (Z.of_nat correct) / inject_Z (Z.of_nat n) in
              match update_best (Fin test_loss) (Fin test_acc)
                      (advance (hn_train (snd fp)) (grad_estimator self)
                               (EvEval :: flat_map pass_events (fst fp) ++ [EvTrain])
                               self) with
              | Ok (_, self') => Ok ((test_loss, test_acc, correct), self')
              | Raise e => Raise e
              end
        end
    end.
Proof.
  unfold test. unfold bind at 1.
  rewrite <- (advance_nil self) at 1. rewrite hn_do_advance. cbn [app].
  unfold bind at 1, get_attr at 1.
  rewrite data_test_advance.
  destruct (data_test self) as [loader|]; [|reflexivity].
  unfold bind at 1. rewrite test_loop_advance. cbn zeta.
  destruct (score_passes (vote self) ens_size
              (fst (forward_passes (hn_eval (hypernetwork self)) (batches loader))))
    as [scores|e]; [|reflexivity].
  destruct (Nat.eqb (dataset_len loader) 0); [reflexivity|].
  unfold bind at 1. rewrite hn_do_advance.
  unfold bind at 1. cbn [app].
  unfold Qsum.
  destruct (update_best _ _ _) as [[[] self']|e]; reflexivity.
Qed.

End TestFacts.

(** ** The best metrics *)

Section BestFacts.

Context {HN GE latent theta data : Type}.
Context {HNA : HyperNetworkAPI HN latent theta data}
        {GEA : GradientEstimatorAPI GE HN theta}
        {DA : DataAPI HN data}
        {FN : Functional}.

Local Abbreviation Trainer := (@Trainer HN GE latent theta data).
Local Abbreviation M := (@M HN GE latent theta data).
Local Abbreviation event := (@event latent theta data).
Local Abbreviation best_same := (@best_same HN GE latent theta data).
Local Abbreviation best_improves := (@best_improves HN GE latent theta data).

Lemma flt_trans (a b c : fnum) :
  flt a b = true -> flt b c = true -> flt a c = true.
Proof.
  destruct a as [x| | |], b as [y| | |], c as [w| | |]; cbn;
    try discriminate; try reflexivity.
  rewrite !Qlt_bool_iff. apply Qlt_trans.
Qed.

Lemma fle_refl (a : fnum) : fle a a.
Proof. now left. Qed.

Lemma fle_trans (a b c : fnum) : fle a b -> fle b c -> fle a c.
Proof.
  intros [->|Hab] [->|Hbc]; try (now left); try (now right).
  right. eapply flt_trans; eassumption.
Qed.

Lemma best_same_refl (self : Trainer) : best_same self self.
Proof. now split. Qed.

Lemma best_same_trans (s1 s2 s3 : Trainer) :
  best_same s1 s2 -> best_same s2 s3 -> best_same s1 s3.
Proof. intros [H1 H2] [H3 H4]. split; congruence. Qed.

Lemma best_improves_refl (self : Trainer) : best_improves self self.
Proof. split; apply fle_refl. Qed.

Lemma best_improves_trans (s1 s2 s3 : Trainer) :
  best_improves s1 s2 -> best_improves s2 s3 -> best_improves s1 s3.
Proof.
  intros [H1 H2] [H3 H4]. split; eapply fle_trans; eassumption.
Qed.

Lemma best_same_improves (s1 s2 : Trainer) : best_same s1 s2 -> best_improves s1 s2.
Proof. intros [H1 H2]. split; left; congruence. Qed.

(** *** Methods built from the monad respect a preorder on states *)

Section Respects.

Variable R : Trainer -> Trainer -> Prop.
Hypothesis R_refl : forall self, R self self.
Hypothesis R_trans : forall s1 s2 s3, R s1 s2 -> R s2 s3 -> R s1 s3.

Lemma respects_ret {A} (a : A) : respects R (ret a).
Proof. intros self b self' H. inversion H; subst. apply R_refl. Qed.

Lemma respects_bind {A B} (m : M A) (k : A -> M B) :
  respects R m -> (forall a, respects R (k a)) -> respects R (bind m k).
Proof.
  intros Hm Hk self b self' H. unfold bind in H.
  destruct (m self) as [[a self1]|e] eqn:Hms; [|discriminate].
  eapply R_trans; [eapply Hm; exact Hms|eapply Hk; exact H].
Qed.

Lemma respects_raise {A} (e : error) : respects R (@raise _ _ _ _ _ A e).
Proof. intros self a self' H. discriminate. Qed.

Lemma respects_lift {A} (r : result A) : respects R (lift r).
Proof.
  intros self a self' H. unfold lift in H. destruct r; [|discriminate].
  inversion H; subst. apply R_refl.
Qed.

Lemma respects_gets {A} (f : Trainer -> A) : respects R (gets f).
Proof. intros self a self' H. inversion H; subst. apply R_refl. Qed.

Lemma respects_get_attr {A} (f : Trainer -> option A) (name : string) :
  respects R (get_attr f name).
Proof.
  intros self a self' H. unfold get_attr in H.
  destruct (f self); [|discriminate]. inversion H; subst. apply R_refl.
Qed.

Lemma respects_for_each {X} (l : list X) (body : X -> M unit) :
  (forall x, respects R (body x)) -> respects R (for_each l body).
Proof.
  intros Hbody. induction l as [|x rest IH]; cbn [for_each].
  - apply respects_ret.
  - apply respects_bind; [apply Hbody|intros _; exact IH].
Qed.

End Respects.

Lemma respects_weaken {A} (R R' : Trainer -> Trainer -> Prop) (m : M A) :
  (forall s1 s2, R s1 s2 -> R' s1 s2) -> respects R m -> respects R' m.
Proof. intros Himp Hm self a self' H. apply Himp. eapply Hm; exact H. Qed.

(** *** The primitive steps leave the best metrics alone *)

Lemma same_emit (ev : event) : respects best_same (emit ev : M unit).
Proof. intros self a self' H. inversion H; subst. now split. Qed.

Lemma same_hn_call {A} (f : HN -> A * HN) (ev : A -> event) :
  respects best_same (hn_call f ev).
Proof.
  intros self a self' H. unfold hn_call in H.
  destruct (f (hypernetwork self)). inversion H; subst. now split.
Qed.

Lemma same_hn_do (f : HN -> HN) (ev : event) : respects best_same (hn_do f ev).
Proof. apply same_hn_call. Qed.

Lemma same_compute_gradients_call (outputs : Tensor.tensor3) (th : theta)
    (target : list nat) :
  respects best_same (compute_gradients_call outputs th target).
Proof.
  intros self a self' H. unfold compute_gradients_call in H.
  destruct (compute_gradients outputs th target (grad_estimator self)).
  inversion H; subst. now split.
Qed.

Lemma same_apply_gradients_call : respects best_same apply_gradients_call.
Proof.
  intros self a self' H. unfold apply_gradients_call in H.
  destruct (apply_gradients (grad_estimator self) (hypernetwork self)).
  inversion H; subst. now split.
Qed.

Create HintDb same discriminated.
Hint Resolve best_same_refl best_same_trans : same.
Hint Resolve same_emit same_hn_call same_hn_do same_compute_gradients_call
  same_apply_gradients_call : same.

Ltac same_steps :=
  repeat first
    [ apply respects_bind; [apply best_same_trans| |intros ?]
    | apply respects_ret; apply best_same_refl
    | apply respects_gets; apply best_same_refl
    | apply respects_get_attr; apply best_same_refl
    | apply respects_lift; apply best_same_refl
    | apply respects_raise
    | solve [auto with same] ].

Lemma same_train_batch (epoch batch_idx : nat) (b : data * list nat) :
  respects best_same (train_batch epoch batch_idx b).
Proof.
  destruct b as [d target]. unfold train_batch. same_steps.
  destruct (Nat.eqb (batch_idx mod 100) 0); same_steps.
Qed.

Lemma same_uncertainty_step (epoch ens_size : nat) :
  respects best_same (uncertainty_step epoch ens_size).
Proof. unfold uncertainty_step. same_steps. Qed.

Lemma same_test_loop (ens_size : nat) (bs : list (data * list nat)) :
  forall tl c, respects best_same (test_loop ens_size bs tl c).
Proof.
  induction bs as [|[d target] rest IH]; intros tl c; cbn [test_loop].
  - same_steps.
  - same_steps.
Qed.

(** *** [update_best] and [test] *)

Lemma update_best_spec (l a : fnum) (self : Trainer) :
  exists self',
    update_best l a self = Ok (tt, self') /\
    best_test_loss self'
      = (if flt l (best_test_loss self) then l else best_test_loss self) /\
    best_test_acc self'
      = (if fgt a (best_test_acc self) then a else best_test_acc self) /\
    hypernetwork self' = hypernetwork self /\
    trace self'
      = trace self ++
        (if flt l (best_test_loss self) || fgt a (best_test_acc self)
         then [EvNewBest] else []).
Proof.
  unfold update_best.
  destruct (flt l (best_test_loss self)) eqn:Hl;
    destruct (fgt a (best_test_acc self)) eqn:Ha; cbn [orb];
    eexists; (split; [reflexivity|]); cbn;
    rewrite ?Hl, ?Ha; cbn; rewrite ?Hl, ?Ha, ?app_nil_r; auto.
Qed.

Lemma test_updates_best (ens_size : nat) (self self' : Trainer)
    (loss acc : Q) (correct : nat) :
  test ens_size self = Ok ((loss, acc, correct), self') ->
  (best_test_loss self' = best_test_loss self \/
   (best_test_loss self' = Fin loss /\
    flt (Fin loss) (best_test_loss self) = true)) /\
  (best_test_acc self' = best_test_acc self \/
   (best_test_acc self' = Fin acc /\
    fgt (Fin acc) (best_test_acc self) = true)).
Proof.
  intros H. rewrite test_unfold in H.
  destruct (data_test self) as [loader|]; [|discriminate].
  cbn zeta in H.
  destruct (score_passes _ _ _) as [scores|e]; [|discriminate].
  destruct (Nat.eqb (dataset_len loader) 0); [discriminate|].
  match type of H with
  | context [update_best ?l ?a ?st] =>
      destruct (update_best_spec l a st) as [st' [Hu [Hl [Ha _]]]]
  end.
  rewrite Hu in H. inversion H; subst. clear H Hu.
  rewrite Hl, Ha. cbn [best_test_loss best_test_acc advance].
  split.
  - destruct (flt _ (best_test_loss self)) eqn:E; [right|left]; auto.
  - destruct (fgt _ (best_test_acc self)) eqn:E; [right|left]; auto.
Qed.

Lemma improves_test (ens_size : nat) : respects best_improves (test ens_size).
Proof.
  intros self [[loss acc] correct] self' H.
  destruct (test_updates_best _ _ H) as [[Hl|[Hl Hl']] [Ha|[Ha Ha']]];
    split; rewrite ?Hl, ?Ha.
  all: try apply fle_refl.
  all: try (right; assumption).
Qed.

Ltac improves_bind :=
  apply respects_bind; [apply best_improves_trans| |intros ?].

Ltac improves_from_same :=
  apply (respects_weaken (R := best_same)); [apply best_same_improves|].

Lemma improves_evaluate_as_ensemble (ens_sizes : list nat) (epoch : nat) :
  respects best_improves (evaluate_as_ensemble ens_sizes epoch).
Proof.
  unfold evaluate_as_ensemble.
  apply respects_for_each;
    [apply best_improves_refl|apply best_improves_trans|intros n_models].
  improves_bind; [apply improves_test|].
  destruct a as [[loss acc] correct].
  improves_from_same. apply same_emit.
Qed.

Lemma improves_train_epoch (epoch : nat) :
  respects best_improves (train_epoch epoch).
Proof.
  unfold train_epoch.
  improves_bind; [apply respects_get_attr; apply best_improves_refl|].
  improves_bind.
  { apply respects_for_each;
      [apply best_improves_refl|apply best_improves_trans|intros ib].
    improves_from_same. apply same_train_batch. }
  improves_bind; [apply respects_gets; apply best_improves_refl|].
  improves_bind; [apply improves_evaluate_as_ensemble|].
  improves_bind; [apply respects_gets; apply best_improves_refl|].
  destruct a3.
  - improves_bind; [apply respects_gets; apply best_improves_refl|].
    apply respects_for_each;
      [apply best_improves_refl|apply best_improves_trans|intros ens_size].
    improves_from_same. apply same_uncertainty_step.
  - apply respects_ret. apply best_improves_refl.
Qed.

Lemma improves_train : respects best_improves train.
Proof.
  unfold train.
  improves_bind; [apply respects_gets; apply best_improves_refl|].
  apply respects_for_each;
    [apply best_improves_refl|apply best_improves_trans|intros epoch].
  apply improves_train_epoch.
Qed.

Lemma improves_update_best (l a : fnum) :
  respects best_improves (update_best l a).
Proof.
  intros self [] self' H.
  destruct (update_best_spec l a self) as [st [Hu [Hl [Ha _]]]].
  rewrite Hu in H. inversion H; subst. clear H.
  split; [rewrite Hl|rewrite Ha].
  - destruct (flt l (best_test_loss self)) eqn:E; [now right|now left].
  - unfold fgt in *.
    destruct (flt (best_test_acc self) a) eqn:E; [now right|now left].
Qed.

(** C2. The best metrics only improve.  The constructor sets the best
    accuracy to 0 and the best loss to infinity.  Every call of [test]
    leaves [best_test_loss] as it was or overwrites it with the new test
    loss, and only when that is strictly smaller; likewise [best_test_acc]
    with a strictly greater accuracy; this holds of [update_best] for any
    two floats, [NaN] included.  A training batch and an uncertainty step
    leave both fields as they were, so over a whole run of [train] the best
    loss never goes up and the best accuracy never goes down. *)
Theorem best_metrics_only_improve :
  (forall (ens_size : nat) (self self' : Trainer) (loss acc : Q) (correct : nat),
      test ens_size self = Ok ((loss, acc, correct), self') ->
      (best_test_loss self' = best_test_loss self \/
       (best_test_loss self' = Fin loss /\
        flt (Fin loss) (best_test_loss self) = true)) /\
      (best_test_acc self' = best_test_acc self \/
       (best_test_acc self' = Fin acc /\
        fgt (Fin acc) (best_test_acc self) = true)) /\
      best_improves self self') /\
  (forall (l a : fnum) (self : Trainer),
      exists self',
        update_best l a self = Ok (tt, self') /\ best_improves self self') /\
  (forall (epoch batch_idx : nat) (b : data * list nat) (self self' : Trainer),
      train_batch epoch batch_idx b self = Ok (tt, self') -> best_same self self') /\
  (forall (epoch ens_size : nat) (self self' : Trainer),
      uncertainty_step epoch ens_size self = Ok (tt, self') -> best_same self self') /\
  (forall (epoch : nat) (self self' : Trainer),
      train_epoch epoch self = Ok (tt, self') -> best_improves self self') /\
  (forall self self' : Trainer,
      train self = Ok (tt, self') -> best_improves self self') /\
  (forall a : args.t,
      exists t : Trainer,
        __init__ a = Ok t /\ best_test_acc t = Fin 0 /\ best_test_loss t = PInf).
Proof.
  split; [|split; [|split; [|split; [|split; [|split]]]]].
  - intros ens_size self self' loss acc correct H.
    destruct (test_updates_best _ _ H) as [Hl Ha].
    split; [exact Hl|]. split; [exact Ha|].
    eapply improves_test; exact H.
  - intros l a self.
    destruct (update_best_spec l a self) as [st [Hu _]].
    exists st. split; [exact Hu|]. eapply improves_update_best; exact Hu.
  - intros epoch batch_idx b self self' H. eapply same_train_batch; exact H.
  - intros epoch ens_size self self' H. eapply same_uncertainty_step; exact H.
  - intros epoch self self' H. eapply improves_train_epoch; exact H.
  - intros self self' H. eapply improves_train; exact H.
  - intros a. unfold __init__.
    destruct (String.eqb (args.dataset a) "mnist");
      [|destruct (String.eqb (args.dataset a) "cifar")];
      (eexists; split; [reflexivity|]; split; reflexivity).
Qed.

End BestFacts.

(** ** What one evaluation pass computes *)

Section EvalFacts.

Import Tensor.

Context {HN GE latent theta data : Type}.
Context {HNA : HyperNetworkAPI HN latent theta data}
        {GEA : GradientEstimatorAPI GE HN theta}
        {DA : DataAPI HN data}
        {FN : Functional}.

Local Abbreviation Trainer := (@Trainer HN GE latent theta data).
Local Abbreviation event := (@event latent theta data).
Local Abbreviation pass := (@pass latent theta data).

Lemma score_batch_loss (v : string) (n : nat) (out : tensor3) (target : list nat)
    (l : Q) (c : nat) :
  score_batch v n out target = Ok (l, c) -> l = batch_mean_loss n out target.
Proof.
  unfold score_batch, batch_mean_loss. intros H.
  destruct (map (fun x => cross_entropy x target) (firstn n (transpose out)))
    as [|x xs]; cbn in H; [discriminate|].
  destruct (cast_vote v _) as [votes|e]; cbn in H; [|discriminate].
  destruct (count_correct votes target) as [k|e]; cbn in H; [|discriminate].
  now inversion H.
Qed.

Lemma score_passes_losses (v : string) (n : nat) (ps : list pass)
    (scores : list (Q * nat)) :
  score_passes v n ps = Ok scores ->
  map fst scores = map (fun p => batch_mean_loss n (p_out p) (p_target p)) ps.
Proof.
  intros H. apply rmap_Forall2 in H.
  induction H as [|p sc ps' scs Hp _ IH]; [reflexivity|].
  cbn [map]. rewrite IH. f_equal.
  destruct sc as [l c]. cbn [fst]. eapply score_batch_loss. exact Hp.
Qed.

Lemma forward_passes_batches (bs : list (data * list nat)) :
  forall hn : HN,
    map (fun p => (p_data p, p_target p)) (fst (forward_passes hn bs)) = bs.
Proof.
  induction bs as [|[d target] rest IH]; intros hn; [reflexivity|].
  cbn [forward_passes].
  destruct (sample_generator_input hn) as [lat hn1].
  destruct (sample_parameters lat hn1) as [th hn2].
  destruct (forward_model d (set_parameters_to_model th hn2)) as [out hn4].
  specialize (IH hn4). destruct (forward_passes hn4 rest) as [ps hn'].
  cbn [fst map p_data p_target] in *. now rewrite IH.
Qed.

Lemma forward_passes_fresh (bs : list (data * list nat)) :
  forall hn : HN, Forall fresh_pass (fst (forward_passes hn bs)).
Proof.
  induction bs as [|[d target] rest IH]; intros hn; [constructor|].
  cbn [forward_passes].
  destruct (sample_generator_input hn) as [lat hn1] eqn:H1.
  destruct (sample_parameters lat hn1) as [th hn2] eqn:H2.
  destruct (forward_model d (set_parameters_to_model th hn2)) as [out hn4] eqn:H4.
  specialize (IH hn4). destruct (forward_passes hn4 rest) as [ps hn'].
  cbn [fst] in *. constructor; [|exact IH].
  exists hn, hn1, hn2, hn4. cbn [p_lat p_th p_data p_out]. auto.
Qed.

(** [test] returns as soon as the test loader is set, the test set is not
    empty and every batch can be scored. *)
Lemma test_returns (ens_size : nat) (self : Trainer) (loader : Loader data)
    (scores : list (Q * nat)) :
  let fp := forward_passes (hn_eval (hypernetwork self)) (batches loader) in
  let n := inject_Z (Z.of_nat (dataset_len loader)) in
  let correct := fold_left Nat.add (map snd scores) 0%nat in
  data_test self = Some loader ->
  dataset_len loader <> 0%nat ->
  score_passes (vote self) ens_size (fst fp) = Ok scores ->
  exists self' tail,
    test ens_size self
    = Ok ((Qsum (map fst scores) / n, inject_Z (Z.of_nat correct) / n, correct),
          self') /\
    trace self'
    = trace self ++ EvEval :: flat_map pass_events (fst fp) ++ EvTrain :: tail /\
    hypernetwork self' = hn_train (snd fp).
Proof.
  intros fp n correct Hdt Hlen Hsc.
  rewrite test_unfold, Hdt. cbn zeta. fold fp. rewrite Hsc.
  apply Nat.eqb_neq in Hlen. rewrite Hlen.
  match goal with
  | |- context [update_best ?l ?a ?st] =>
      destruct (update_best_spec l a st) as [st' [Hu [_ [_ [Hhn Htr]]]]]
  end.
  rewrite Hu. exists st'. eexists. split; [reflexivity|].
  split; [|exact Hhn].
  rewrite Htr. cbn [trace advance app]. rewrite <- !app_assoc.
  cbn [app]. rewrite <- app_assoc. reflexivity.
Qed.

(** Two sub-sizes that both cover every member give the same evaluation. *)
Lemma score_passes_clamp (v : string) (n n' : nat) (ps : list pass) :
  Forall (fun p => (List.length (transpose (p_out p)) <= n)%nat /\
                   (List.length (transpose (p_out p)) <= n')%nat) ps ->
  score_passes v n ps = score_passes v n' ps.
Proof.
  intros Hall. unfold score_passes.
  induction Hall as [|p ps' [Hn Hn'] _ IH]; [reflexivity|].
  cbn [rmap]. rewrite IH. f_equal.
  unfold score_batch. now rewrite !firstn_all2.
Qed.

End EvalFacts.

Section EvalTheorems.

Import Tensor.

Context {HN GE latent theta data : Type}.
Context {HNA : HyperNetworkAPI HN latent theta data}
        {GEA : GradientEstimatorAPI GE HN theta}
        {DA : DataAPI HN data}
        {FN : Functional}.

Local Abbreviation Trainer := (@Trainer HN GE latent theta data).

Lemma samples_count (ps : list (@pass latent theta data)) :
  List.length (filter (fun ev => match ev with EvSample _ => true | _ => false end)
                      (flat_map pass_events ps))
  = List.length ps.
Proof.
  induction ps as [|p ps IH]; [reflexivity|].
  cbn [flat_map pass_events app filter List.length]. now rewrite IH.
Qed.

(** C9.  Slicing clamps: a sub-size [n] that is at least the number [N] of
    members returned by the forward pass keeps all of them, so the slice
    raises nothing and [test n] returns exactly what [test N] returns, the
    state and any exception included.  With the ablation switched on the
    sub-sizes are [1, 5, 10, particles]; each of 5 and 10 that is at least
    [N] evaluates the full ensemble. *)
Theorem oversized_subensemble_is_full_ensemble (self : Trainer) (N : nat) :
  (forall loader, data_test self = Some loader ->
     Forall (fun p => List.length (transpose (p_out p)) = N)
            (fst (forward_passes (hn_eval (hypernetwork self)) (batches loader)))) ->
  (forall (n : nat) (out : tensor3),
      (List.length (transpose out) <= n)%nat ->
      firstn n (transpose out) = transpose out) /\
  (forall n : nat, (N <= n)%nat -> test n self = test N self) /\
  (test_ensemble self = true ->
   ens_sizes_of self = [1; 5; 10; particles self]%nat /\
   ((N <= 10)%nat -> test 10 self = test N self) /\
   ((N <= 5)%nat -> test 5 self = test N self)).
Proof.
  intros Hmem.
  assert (Hclamp : forall n : nat, (N <= n)%nat -> test n self = test N self).
  { intros n Hn. rewrite !test_unfold.
    destruct (data_test self) as [loader|] eqn:Hdt; [|reflexivity].
    cbn zeta.
    rewrite (@score_passes_clamp _ _ _ _ (vote self) n N).
    - reflexivity.
    - specialize (Hmem loader eq_refl).
      eapply Forall_impl; [|exact Hmem]. cbn. intros p Hp. lia. }
  split; [|split].
  - intros n out Hn. now apply firstn_all2.
  - exact Hclamp.
  - intros Hte. split; [|split].
    + unfold ens_sizes_of. now rewrite Hte.
    + apply Hclamp.
    + apply Hclamp.
Qed.

(** C10. One evaluation pass draws a new latent batch, generates particles
    from it and installs them for every test batch: the trace of [test] is
    one sample / generate / install / forward group per batch, in the order
    of the loader, each group with the particles generated from the latent
    drawn in that group. *)
Theorem test_resamples_ensemble_for_every_batch
    (ens_size : nat) (self : Trainer) (loader : Loader data)
    (scores : list (Q * nat)) :
  let fp := forward_passes (hn_eval (hypernetwork self)) (batches loader) in
  data_test self = Some loader ->
  dataset_len loader <> 0%nat ->
  score_passes (vote self) ens_size (fst fp) = Ok scores ->
  exists r self' tail,
    test ens_size self = Ok (r, self') /\
    trace self'
    = trace self ++ EvEval :: flat_map pass_events (fst fp) ++ EvTrain :: tail /\
    map (fun p => (p_data p, p_target p)) (fst fp) = batches loader /\
    Forall fresh_pass (fst fp) /\
    List.length (filter (fun ev => match ev with EvSample _ => true | _ => false end)
                        (flat_map pass_events (fst fp)))
    = List.length (batches loader).
Proof.
  intros fp Hdt Hlen Hsc.
  destruct (test_returns ens_size self Hdt Hlen Hsc) as [self' [tail [Ht [Htr _]]]].
  eexists. exists self', tail. split; [exact Ht|].
  split; [exact Htr|].
  split; [apply forward_passes_batches|].
  split; [apply forward_passes_fresh|].
  rewrite <- (forward_passes_batches (batches loader) (hn_eval (hypernetwork self))).
  fold fp. rewrite length_map. apply samples_count.
Qed.

End EvalTheorems.

(** ** The training step and the constructor *)

Section TrainFacts.

Import Tensor.

Context {HN GE latent theta data : Type}.
Context {HNA : HyperNetworkAPI HN latent theta data}
        {GEA : GradientEstimatorAPI GE HN theta}
        {DA : DataAPI HN data}
        {FN : Functional}.

Local Abbreviation Trainer := (@Trainer HN GE latent theta data).
Local Abbreviation event := (@event latent theta data).

Lemma compute_gradients_call_advance (outputs : tensor3) (th : theta)
    (target : list nat) (hn : HN) (ge : GE) (evs : list event) (self : Trainer) :
  compute_gradients_call outputs th target (advance hn ge evs self)
  = Ok (fst (compute_gradients outputs th target ge),
        advance hn (snd (compute_gradients outputs th target ge))
                (evs ++ [EvComputeGradients th]) self).
Proof.
  unfold compute_gradients_call. cbn [grad_estimator advance].
  destruct (compute_gradients outputs th target ge) as [l ge'].
  cbn [fst snd]. unfold add_event, set_grad_estimator, advance. cbn.
  now rewrite <- app_assoc.
Qed.

Lemma apply_gradients_call_advance (hn : HN) (ge : GE) (evs : list event)
    (self : Trainer) :
  apply_gradients_call (advance hn ge evs self)
  = Ok (tt, advance (snd (apply_gradients ge hn)) (fst (apply_gradients ge hn))
                    (evs ++ [EvApplyGradients]) self).
Proof.
  unfold apply_gradients_call. cbn [grad_estimator hypernetwork advance].
  destruct (apply_gradients ge hn) as [ge' hn'].
  cbn [fst snd]. unfold add_event, set_hypernetwork, set_grad_estimator, advance.
  cbn. now rewrite <- app_assoc.
Qed.

Lemma emit_advance (ev : event) (hn : HN) (ge : GE) (evs : list event)
    (self : Trainer) :
  emit ev (advance hn ge evs self) = Ok (tt, advance hn ge (evs ++ [ev]) self).
Proof.
  unfold emit, add_event, advance. cbn. now rewrite <- app_assoc.
Qed.

(** C8. A training batch makes these calls, in this order and each once:
    sample the latents, generate the particles, install them, run the
    forward pass, let the estimator compute losses and corrected gradients,
    clear the generator's gradients, let the estimator backpropagate, step
    the generator's optimizers; it logs when the batch index is a multiple
    of 100.  The constructor attaches the optimizers with the two learning
    rates 5e-3 (mixer) and 1e-4 (generator). *)
Theorem train_batch_runs_the_steps_in_order
    (epoch batch_idx : nat) (d : data) (target : list nat) (self : Trainer) :
  let hn0 := hypernetwork self in
  let lat := fst (sample_generator_input hn0) in
  let hn1 := snd (sample_generator_input hn0) in
  let th := fst (sample_parameters lat hn1) in
  let hn2 := snd (sample_parameters lat hn1) in
  let hn3 := set_parameters_to_model th hn2 in
  let out := fst (forward_model d hn3) in
  let hn4 := snd (forward_model d hn3) in
  let cg := compute_gradients (transpose out) th target (grad_estimator self) in
  let hn5 := zero_grad hn4 in
  let ag := apply_gradients (snd cg) hn5 in
  let hn6 := update_step (snd ag) in
  let steps :=
    [EvSample lat; EvGenerate lat th; EvInstall th; EvForward d;
     EvComputeGradients th; EvZeroGrad; EvApplyGradients; EvUpdateStep] in
  let log :=
    if Nat.eqb (batch_idx mod 100) 0
    then [EvLog epoch batch_idx (mean (fst cg))] else [] in
  train_batch epoch batch_idx (d, target) self
  = Ok (tt, advance hn6 (fst ag) (steps ++ log) self) /\
  (forall a : args.t,
      exists t : Trainer,
        __init__ a = Ok t /\
        exists hn, hypernetwork t = attach_optimizers (5 # 1000) (1 # 10000) hn /\
        In (EvAttachOptimizers (5 # 1000) (1 # 10000)) (trace t)) /\
  ~ (5 # 1000 == 1 # 10000).
Proof.
  cbn zeta. split; [|split].
  - unfold train_batch.
    rewrite <- (advance_nil self) at 1.
    unfold bind at 1. rewrite hn_call_advance.
    unfold bind at 1. rewrite hn_call_advance.
    unfold bind at 1. rewrite hn_do_advance.
    unfold bind at 1. rewrite hn_call_advance.
    unfold bind at 1. rewrite compute_gradients_call_advance.
    unfold bind at 1. rewrite hn_do_advance.
    unfold bind at 1. rewrite apply_gradients_call_advance.
    unfold bind at 1. rewrite hn_do_advance.
    cbn [app].
    destruct (Nat.eqb (batch_idx mod 100) 0).
    + rewrite emit_advance. reflexivity.
    + reflexivity.
  - intros a. unfold __init__.
    destruct (String.eqb (args.dataset a) "mnist");
      [|destruct (String.eqb (args.dataset a) "cifar")];
      (eexists; split; [reflexivity|]; eexists; split; [reflexivity|];
       cbn [trace]; right; now left).
  - intros H. discriminate H.
Qed.

Lemma init_returns (a : args.t) :
  exists t : Trainer,
    __init__ a = Ok t /\
    dataset t = args.dataset a /\ vote t = args.vote a /\ epochs t = 200%nat /\
    (String.eqb (args.dataset a) "mnist" = false ->
     String.eqb (args.dataset a) "cifar" = false ->
     data_train t = None /\ data_test t = None).
Proof.
  unfold __init__.
  destruct (String.eqb (args.dataset a) "mnist") eqn:E1;
    [|destruct (String.eqb (args.dataset a) "cifar") eqn:E2];
    (eexists; split; [reflexivity|]; cbn; repeat split; congruence).
Qed.

(** C5, as the code has it.  Nothing is validated at configuration time:
    the constructor returns a trainer for every dataset and vote string.  A
    dataset other than 'mnist' and 'cifar' leaves the loaders unset and the
    run stops with an attribute error when [train] first reads
    [data_train]; a vote mode other than 'soft' and 'hard' stops the run
    with an unbound local [vote] while the first test batch is scored. *)
Theorem unsupported_strings_fail_late_not_at_configuration :
  (forall a : args.t,
      exists t : Trainer,
        __init__ a = Ok t /\ dataset t = args.dataset a /\ vote t = args.vote a) /\
  (forall a : args.t,
      args.dataset a <> "mnist"%string -> args.dataset a <> "cifar"%string ->
      main a = Raise (AttributeError "data_train")) /\
  (forall (v : string) (n : nat) (out : tensor3) (target : list nat),
      v <> "soft"%string -> v <> "hard"%string -> firstn n (transpose out) <> [] ->
      score_batch v n out target = Raise (UnboundLocalError "vote")) /\
  (forall (n : nat) (self : Trainer) (loader : Loader data) p ps,
      vote self <> "soft"%string -> vote self <> "hard"%string ->
      data_test self = Some loader ->
      fst (forward_passes (hn_eval (hypernetwork self)) (batches loader)) = p :: ps ->
      firstn n (transpose (p_out p)) <> [] ->
      test n self = Raise (UnboundLocalError "vote")).
Proof.
  assert (Hscore : forall (v : string) (n : nat) (out : tensor3) (target : list nat),
             v <> "soft"%string -> v <> "hard"%string -> firstn n (transpose out) <> [] ->
             score_batch v n out target = Raise (UnboundLocalError "vote")).
  { intros v n out target Hs Hh Hne. unfold score_batch.
    destruct (firstn n (transpose out)) as [|m ms]; [congruence|].
    cbn [map stack rbind]. unfold cast_vote.
    apply String.eqb_neq in Hs, Hh. now rewrite Hs, Hh. }
  split; [|split; [|split]].
  - intros a. destruct (init_returns a) as [t [Hi [Hd [Hv _]]]].
    exists t. auto.
  - intros a Hm Hc. apply String.eqb_neq in Hm, Hc.
    destruct (init_returns a) as [t [Hi [_ [_ [He Hnone]]]]].
    destruct (Hnone Hm Hc) as [Htrain _].
    unfold main. rewrite Hi. cbn [rbind].
    unfold train, bind, gets. rewrite He.
    change (seq 0 200) with (0%nat :: seq 1 199). cbn [for_each].
    unfold bind, train_epoch, bind, get_attr. now rewrite Htrain.
  - exact Hscore.
  - intros n self loader p ps Hs Hh Hdt Hfp Hne.
    rewrite test_unfold, Hdt. cbn zeta. rewrite Hfp.
    unfold score_passes. cbn [rmap]. now rewrite Hscore.
Qed.

End TrainFacts.

(** ** The Stein estimator *)

Section SteinFacts.

Import Stein.

Variable kexp : Q -> Q.
Variable h_min : Q.

Local Abbreviation all_zero := (Forall (fun q : Q => q == 0)).

Lemma omap_total {A B} (f : A -> option B) (g : A -> B) (l : list A) :
  (forall x, In x l -> f x = Some (g x)) -> omap f l = Some (map g l).
Proof.
  induction l as [|x xs IH]; intros H; [reflexivity|].
  cbn [omap map]. rewrite (H x) by now left. cbn [obind].
  rewrite IH by (intros y Hy; apply H; now right). reflexivity.
Qed.

Lemma Qmult_one_l (x : Q) : 1 * x = x.
Proof. destruct x as [a b]. unfold Qmult. cbn. now destruct a. Qed.

Lemma scale_one (v : particle) : scale 1 v = v.
Proof.
  unfold scale. rewrite <- (map_id v) at 2. apply map_ext. apply Qmult_one_l.
Qed.

Lemma vsub_self_zero (p : particle) : all_zero (vsub p p).
Proof.
  unfold vsub. induction p as [|x p IH]; cbn; constructor; [|exact IH].
  cbn. ring.
Qed.

Lemma vsub_self_length (p : particle) : List.length (vsub p p) = List.length p.
Proof. unfold vsub. rewrite length_map, length_combine. lia. Qed.

Lemma vadd_zero (a b : particle) : all_zero a -> all_zero b -> all_zero (Tensor.vadd a b).
Proof.
  intros Ha. revert b. unfold Tensor.vadd.
  induction Ha as [|x a Hx _ IH]; intros b Hb; [constructor|].
  destruct Hb as [|y b Hy Hb]; [constructor|].
  cbn. constructor; [cbn; rewrite Hx, Hy; ring|now apply IH].
Qed.

Lemma vadd_length (a b : particle) :
  List.length a = List.length b -> List.length (Tensor.vadd a b) = List.length a.
Proof.
  intros H. unfold Tensor.vadd. rewrite length_map, length_combine. lia.
Qed.

Lemma vsum_zero (dim : nat) (vs : list particle) :
  Forall (fun v => all_zero v /\ List.length v = dim) vs ->
  all_zero (vsum dim vs) /\ List.length (vsum dim vs) = dim.
Proof.
  unfold vsum.
  assert (Hgen : forall acc,
             all_zero acc /\ List.length acc = dim ->
             Forall (fun v => all_zero v /\ List.length v = dim) vs ->
             all_zero (fold_left Tensor.vadd vs acc) /\
             List.length (fold_left Tensor.vadd vs acc) = dim).
  { induction vs as [|v vs IH]; intros acc Hacc Hvs; [exact Hacc|].
    inversion Hvs as [|? ? [Hv Hl] Hvs']; subst. cbn [fold_left].
    apply IH; [|exact Hvs']. destruct Hacc as [Hz Hlen]. split.
    - now apply vadd_zero.
    - rewrite vadd_length; congruence. }
  apply Hgen. split; [|apply repeat_length].
  apply Forall_forall. intros q Hq. apply repeat_spec in Hq. now subst.
Qed.

Hypothesis h_min_pos : 0 < h_min.

Lemma bandwidth_pos (ps : list particle) : 0 < bandwidth h_min ps.
Proof.
  unfold bandwidth. eapply Qlt_le_trans; [exact h_min_pos|apply Q.le_max_r].
Qed.

Lemma fdiv_bandwidth (a : Q) (ps : list particle) :
  fdiv a (bandwidth h_min ps) = Some (a / bandwidth h_min ps).
Proof.
  unfold fdiv. destruct (Qeq_bool (bandwidth h_min ps) 0) eqn:E; [|reflexivity].
  apply Qeq_bool_iff in E. pose proof (bandwidth_pos ps) as Hpos.
  rewrite E in Hpos. now apply Qlt_irrefl in Hpos.
Qed.

(** With the clamp the kernel matrix is defined for every ensemble. *)
Lemma kernel_matrix_defined (ps : list particle) :
  kernel_matrix kexp h_min ps
  = Some (map (fun x => map (fun y => kexp (- sqdist x y / bandwidth h_min ps)) ps) ps).
Proof.
  unfold kernel_matrix. cbn zeta.
  apply omap_total. intros x _. apply omap_total. intros y _.
  now rewrite fdiv_bandwidth.
Qed.

Lemma repulsion_defined (ps : list particle) (x : particle) :
  repulsion kexp h_min ps x
  = Some (vsum (List.length x)
            (map (fun y =>
                    map (fun d => kexp (- sqdist x y / bandwidth h_min ps) * 2 * d
                                  / bandwidth h_min ps)
                        (vsub x y)) ps)).
Proof.
  unfold repulsion. cbn zeta.
  rewrite (omap_total _ (fun y =>
             map (fun d => kexp (- sqdist x y / bandwidth h_min ps) * 2 * d
                           / bandwidth h_min ps) (vsub x y))).
  - reflexivity.
  - intros y _. rewrite fdiv_bandwidth. cbn [obind].
    apply omap_total. intros d _. apply fdiv_bandwidth.
Qed.

Lemma omap_defined {A B} (f : A -> option B) (l : list A) :
  (forall x, In x l -> exists y, f x = Some y) ->
  exists l', omap f l = Some l' /\ List.length l' = List.length l.
Proof.
  induction l as [|x xs IH]; intros H; [now exists []|].
  destruct (H x (or_introl eq_refl)) as [y Hy].
  destruct IH as [ys [Hys Hlen]]; [intros z Hz; apply H; now right|].
  exists (y :: ys). cbn [omap]. rewrite Hy. cbn [obind]. rewrite Hys.
  split; [reflexivity|]. cbn. now rewrite Hlen.
Qed.

(** With the clamp the corrected gradients of the Stein mode are defined
    for every ensemble. *)
Lemma svgd_gradients_defined (alpha : Q) (ps grad_loss : list particle) :
  exists gs,
    svgd_gradients kexp h_min alpha ps grad_loss = Some gs /\
    List.length gs = List.length ps.
Proof.
  unfold svgd_gradients. rewrite kernel_matrix_defined. cbn [obind].
  match goal with
  | |- context [omap ?f (combine ps ?K)] =>
      destruct (@omap_defined _ _ f (combine ps K)) as [gs [Hgs Hlen]]
  end.
  - intros [x row] Hin. cbn [fst snd]. rewrite repulsion_defined. cbn [obind].
    assert (Hn : Qeq_bool (inject_Z (Z.of_nat (List.length ps))) 0 = false).
    { destruct ps as [|q qs]; [destruct Hin|].
      destruct (Qeq_bool _ 0) eqn:E; [|reflexivity].
      apply Qeq_bool_iff in E. unfold Qeq in E. cbn in E. lia. }
    match goal with
    | |- context [omap ?g ?v] =>
        destruct (@omap_defined _ _ g v) as [r [Hr _]]; [|now exists r]
    end.
    intros g _. unfold fdiv. rewrite Hn. now eexists.
  - exists gs. split; [exact Hgs|].
    etransitivity; [exact Hlen|]. rewrite length_combine, length_map. lia.
Qed.

End SteinFacts.

Lemma Qsum_zero (l : list Q) : Forall (fun q => q == 0) l -> Tensor.Qsum l == 0.
Proof.
  unfold Tensor.Qsum.
  assert (Hgen : forall acc, acc == 0 -> Forall (fun q => q == 0) l ->
                             fold_left Qplus l acc == 0).
  { induction l as [|x l IH]; intros acc Hacc Hl; [exact Hacc|].
    inversion Hl as [|? ? Hx Hl']; subst. cbn [fold_left].
    apply IH; [|exact Hl']. rewrite Hacc, Hx. ring. }
  apply Hgen. reflexivity.
Qed.

Lemma sqdist_self_zero (p : Stein.particle) : Stein.sqdist p p == 0.
Proof.
  unfold Stein.sqdist. apply Qsum_zero.
  pose proof (vsub_self_zero p) as Hz.
  induction Hz as [|d ds Hd _ IH]; cbn [map]; constructor; [|exact IH].
  rewrite Hd. ring.
Qed.

(** C6. In naive mode with [alpha = 1] the corrected gradients are the
    particles' own data-loss gradients, unchanged; whatever [alpha], the
    gradient of particle [i] is [alpha] times its own gradient and no other
    particle's gradient enters it.  The trainer builds its estimator with
    [alpha = 1.0]. *)
Theorem naive_unit_alpha_gradient_is_own_gradient :
  (forall (kexp : Q -> Q) (h_min : Q) (ps grad_loss : list Stein.particle),
      Stein.corrected_gradients kexp h_min Stein.naive 1 ps grad_loss
      = Some grad_loss) /\
  (forall (kexp : Q -> Q) (h_min alpha : Q) (ps grad_loss : list Stein.particle),
      exists gs,
        Stein.corrected_gradients kexp h_min Stein.naive alpha ps grad_loss = Some gs /\
        forall i : nat, nth i gs [] = Stein.scale alpha (nth i grad_loss [])) /\
  (forall (HN GE latent theta data : Type)
          (HNA : HyperNetworkAPI HN latent theta data)
          (GEA : GradientEstimatorAPI GE HN theta)
          (DA : DataAPI HN data) (a : args.t),
      exists t : @Trainer HN GE latent theta data,
        __init__ a = Ok t /\
        grad_estimator t
        = GradientEstimatorStein (args.num_particles a) 1 (args.grad a)).
Proof.
  split; [|split].
  - intros kexp h_min ps grad_loss. cbn [Stein.corrected_gradients].
    f_equal. unfold Stein.naive_gradients.
    rewrite <- (map_id grad_loss) at 2. apply map_ext. apply scale_one.
  - intros kexp h_min alpha ps grad_loss. eexists. split; [reflexivity|].
    intros i. unfold Stein.naive_gradients.
    change (@nil Q) with (Stein.scale alpha []) at 1. apply map_nth.
  - intros HN GE latent theta data HNA GEA DA a. unfold __init__.
    destruct (String.eqb (args.dataset a) "mnist");
      [|destruct (String.eqb (args.dataset a) "cifar")];
      (eexists; split; reflexivity).
Qed.

(** C7. In Stein mode, with the bandwidth clamped from below by a positive
    [h_min], an ensemble of [N] identical particles has a kernel matrix
    that is defined (every entry is the exponential of a zero argument, no
    division by zero occurs), the repulsion term of each particle is
    defined and is the zero vector, and the corrected gradients are
    defined. *)
Theorem identical_particles_kernel_defined_repulsion_zero
    (kexp : Q -> Q) (h_min : Q) (p : Stein.particle) (N : nat) :
  0 < h_min ->
  (exists K,
      Stein.kernel_matrix kexp h_min (repeat p N) = Some K /\
      List.length K = N /\
      Forall (fun row =>
                List.length row = N /\
                Forall (fun k => exists e, e == 0 /\ k = kexp e) row) K) /\
  (exists r,
      Stein.repulsion kexp h_min (repeat p N) p = Some r /\
      List.length r = List.length p /\
      Forall (fun q => q == 0) r) /\
  (forall (alpha : Q) (grad_loss : list Stein.particle),
      exists gs,
        Stein.corrected_gradients kexp h_min Stein.svgd alpha (repeat p N) grad_loss
        = Some gs /\
        List.length gs = N).
Proof.
  intros Hpos. split; [|split].
  - rewrite (kernel_matrix_defined kexp Hpos). eexists. split; [reflexivity|].
    split; [now rewrite length_map, repeat_length|].
    apply Forall_forall. intros row Hrow.
    apply in_map_iff in Hrow. destruct Hrow as [x [<- Hx]].
    apply repeat_spec in Hx. subst x.
    split; [now rewrite length_map, repeat_length|].
    apply Forall_forall. intros k Hk.
    apply in_map_iff in Hk. destruct Hk as [y [<- Hy]].
    apply repeat_spec in Hy. subst y.
    eexists. split; [|reflexivity].
    rewrite sqdist_self_zero. unfold Qdiv. ring.
  - rewrite (repulsion_defined kexp Hpos). eexists. split; [reflexivity|].
    apply and_comm. apply vsum_zero.
    apply Forall_forall. intros v Hv.
    apply in_map_iff in Hv. destruct Hv as [y [<- Hy]].
    apply repeat_spec in Hy. subst y.
    split; [|now rewrite length_map, vsub_self_length].
    pose proof (vsub_self_zero p) as Hz.
    induction Hz as [|d ds Hd _ IH]; cbn [map]; constructor; [|exact IH].
    rewrite Hd. unfold Qdiv. ring.
  - intros alpha grad_loss. cbn [Stein.corrected_gradients].
    destruct (svgd_gradients_defined kexp Hpos alpha (repeat p N) grad_loss)
      as [gs [Hgs Hlen]].
    exists gs. split; [exact Hgs|]. now rewrite Hlen, repeat_length.
Qed.

Import Toy.

(** C4. The loss that [test] returns is the sum over the test batches of
    the mean, over the first [ens_size] members, of the batch's
    cross-entropy, divided once by the number of examples of the test set.
    It is not the average of the per-example losses: on the small instance
    the two differ. *)
Theorem test_loss_is_sum_of_batch_means_over_dataset_size :
  (forall (HN GE latent theta data : Type)
          (HNA : HyperNetworkAPI HN latent theta data)
          (GEA : GradientEstimatorAPI GE HN theta)
          (DA : DataAPI HN data) (FN : Functional)
          (ens_size : nat) (self : @Trainer HN GE latent theta data)
          (loader : Loader data) (scores : list (Q * nat)),
      let fp := forward_passes (hn_eval (hypernetwork self)) (batches loader) in
      data_test self = Some loader ->
      dataset_len loader <> 0%nat ->
      score_passes (vote self) ens_size (fst fp) = Ok scores ->
      exists acc correct self',
        test ens_size self
        = Ok ((Tensor.Qsum (map (fun p => batch_mean_loss ens_size (p_out p) (p_target p))
                                (fst fp))
               / inject_Z (Z.of_nat (dataset_len loader)),
               acc, correct), self')) /\
  (exists (self : @Trainer Toy.HN unit nat nat Tensor.tensor3) loss acc correct self',
      __init__ (Toy.args3 "mnist" "hard") = Ok self /\
      test 3 self = Ok ((loss, acc, correct), self') /\
      ~ loss == per_example_average 3
                  (fst (forward_passes (hn_eval (hypernetwork self))
                                       (batches Toy.loader))) 3).
Proof.
  split.
  - intros HN GE latent theta data HNA GEA DA FN ens_size self loader scores
           fp Hdt Hlen Hsc.
    destruct (test_returns ens_size self Hdt Hlen Hsc) as [self' [tail [Ht _]]].
    rewrite (score_passes_losses _ _ _ Hsc) in Ht.
    eexists. eexists. exists self'. exact Ht.
  - eexists. eexists. eexists. eexists. eexists.
    split; [reflexivity|]. split; [vm_compute; reflexivity|].
    vm_compute. discriminate.
Qed.

(** ** The small instance meets the assumption on softmax *)

Section ToyFacts.

Import Tensor.

Lemma fold_right_Qmin_le (l : list Q) (d x : Q) :
  In x l -> fold_right Qmin d l <= x.
Proof.
  induction l as [|y l IH]; intros Hin; [contradiction|].
  cbn [fold_right]. destruct Hin as [->|Hin].
  - apply Q.le_min_l.
  - eapply Qle_trans; [apply Q.le_min_r|now apply IH].
Qed.

Lemma Qsum_pos (l : list Q) :
  l <> [] -> Forall (fun q => 0 < q) l -> 0 < Qsum l.
Proof.
  unfold Qsum.
  assert (Hgen : forall acc, 0 <= acc -> l <> [] -> Forall (fun q => 0 < q) l ->
                             0 < fold_left Qplus l acc).
  { induction l as [|x l IH]; intros acc Hacc Hne Hall; [congruence|].
    inversion Hall as [|? ? Hx Hl]; subst. cbn [fold_left].
    destruct l as [|y l'].
    - cbn. lra.
    - apply IH; [lra|discriminate|exact Hl]. }
  apply Hgen. apply Qle_refl.
Qed.

Lemma linear_softmax_monotone : @softmax_monotone Toy.functional.
Proof.
  intros row. cbn [softmax Toy.functional]. unfold Toy.linear_softmax.
  set (m := fold_right Qmin (hd 0 row) row).
  set (shifted := map (fun x => x - m + 1) row).
  split; [unfold shifted; now rewrite !length_map|].
  intros i j Hi Hj.
  assert (Hpos : 0 < Qsum shifted).
  { apply Qsum_pos.
    - unfold shifted. destruct row; [cbn in Hi; lia|discriminate].
    - unfold shifted. apply Forall_forall. intros q Hq.
      apply in_map_iff in Hq. destruct Hq as [x [<- Hx]].
      pose proof (fold_right_Qmin_le row (hd 0 row) x Hx) as Hle.
      fold m in Hle. lra. }
  assert (Hnth : forall k, (k < List.length row)%nat ->
             nth k (map (fun y => y / Qsum shifted) shifted) 0
             = (nth k row 0 - m + 1) / Qsum shifted).
  { intros k Hk.
    rewrite (nth_indep _ 0 ((fun y => y / Qsum shifted) 0))
      by (unfold shifted; now rewrite !length_map).
    rewrite (map_nth (fun y => y / Qsum shifted)).
    unfold shifted at 1.
    rewrite (nth_indep _ 0 ((fun x => x - m + 1) 0)) by (now rewrite length_map).
    now rewrite (map_nth (fun x => x - m + 1)). }
  rewrite (Hnth i Hi), (Hnth j Hj). unfold Qdiv.
  pose proof (Qinv_lt_0_compat _ Hpos) as Hinv.
  rewrite (Qmult_lt_r _ _ _ Hinv). split; intros H; lra.
Qed.

End ToyFacts.

(** ** Concrete runs on the small instance *)

Local Abbreviation ToyTrainer := (@Trainer Toy.HN unit nat nat Tensor.tensor3).

(** The three members label the first example of [Toy.batch1] [0, 0, 1]
    and the second [1, 0, 1]; the hard votes are [0] and [1]. *)
Lemma hard_vote_witness :
  firstn 3 (Tensor.transpose (fst Toy.batch1)) <> [] /\
  Forall (fun m => List.length m = 2%nat) (firstn 3 (Tensor.transpose (fst Toy.batch1))) /\
  rmap (rmap Tensor.argmax)
       (map (map softmax) (firstn 3 (Tensor.transpose (fst Toy.batch1))))
  = Ok [[0; 1]; [0; 0]; [1; 1]]%nat /\
  exists votes,
    cast_vote "hard" (firstn 3 (Tensor.transpose (fst Toy.batch1))) = Ok votes /\
    List.length votes = 2%nat /\
    nth 0 votes 0%nat = Tensor.mode [0; 0; 1]%nat /\
    nth 1 votes 0%nat = Tensor.mode [1; 0; 1]%nat.
Proof.
  assert (H1 : firstn 3 (Tensor.transpose (fst Toy.batch1)) <> [])
    by (vm_compute; discriminate).
  assert (H2 : Forall (fun m => List.length m = 2%nat)
                      (firstn 3 (Tensor.transpose (fst Toy.batch1))))
    by (vm_compute; repeat constructor).
  assert (H3 : rmap (rmap Tensor.argmax)
                 (map (map softmax) (firstn 3 (Tensor.transpose (fst Toy.batch1))))
               = Ok [[0; 1]; [0; 0]; [1; 1]]%nat)
    by (vm_compute; reflexivity).
  split; [exact H1|]. split; [exact H2|]. split; [exact H3|].
  destruct (hard_vote_is_lowest_majority_label (fst Toy.batch1) 3 H1 H2 H3)
    as [[votes [Hc [Hl Hb]]] _].
  exists votes. split; [exact Hc|]. split; [exact Hl|]. split.
  - exact (proj1 (Hb 0%nat ltac:(lia))).
  - exact (proj1 (Hb 1%nat ltac:(lia))).
Defined.

(** The first evaluation of a fresh trainer replaces the infinite best
    loss by the loss it measured. *)
Lemma best_metrics_witness :
  exists (self' : ToyTrainer) (loss acc : Q) (correct : nat),
    let self := Toy.trainer in
    __init__ (Toy.args3 "mnist" "hard") = Ok self /\
    test 3 self = Ok ((loss, acc, correct), self') /\
    best_test_loss self = PInf /\
    ((best_test_loss self' = best_test_loss self \/
      (best_test_loss self' = Fin loss /\
       flt (Fin loss) (best_test_loss self) = true)) /\
     (best_test_acc self' = best_test_acc self \/
      (best_test_acc self' = Fin acc /\
       fgt (Fin acc) (best_test_acc self) = true)) /\
     best_improves self self').
Proof.
  destruct (test 3 Toy.trainer)
    as [[[[loss acc] correct] self']|e] eqn:H.
  - exists self', loss, acc, correct. cbn zeta.
    split; [reflexivity|]. split; [exact H|]. split; [reflexivity|].
    exact (proj1 best_metrics_only_improve _ _ _ _ _ _ H).
  - vm_compute in H. discriminate H.
Defined.

(** On the small test loader (batches of two and of one example) [test]
    returns the sum of the two batch means over three. *)
Lemma test_loss_witness :
  let self := Toy.trainer in
  let fp := forward_passes (hn_eval (hypernetwork self)) (batches Toy.loader) in
  data_test self = Some Toy.loader /\
  dataset_len Toy.loader <> 0%nat /\
  exists acc correct self',
    test 3 self
    = Ok ((Tensor.Qsum (map (fun p => batch_mean_loss 3 (p_out p) (p_target p)) (fst fp))
           / inject_Z (Z.of_nat (dataset_len Toy.loader)),
           acc, correct), self').
Proof.
  cbn zeta.
  assert (H1 : data_test Toy.trainer = Some Toy.loader) by reflexivity.
  assert (H2 : dataset_len Toy.loader <> 0%nat) by discriminate.
  split; [exact H1|]. split; [exact H2|].
  destruct (score_passes (vote Toy.trainer) 3
              (fst (forward_passes (hn_eval (hypernetwork Toy.trainer))
                                   (batches Toy.loader))))
    as [scores|e] eqn:H3.
  - exact (proj1 test_loss_is_sum_of_batch_means_over_dataset_size
             _ _ _ _ _ _ _ _ _ 3%nat Toy.trainer Toy.loader scores H1 H2 H3).
  - vm_compute in H3. discriminate H3.
Defined.

(** The two test batches of one evaluation are scored with two different
    ensembles: the particles generated from the first and from the second
    latent draw. *)
Lemma test_resamples_witness :
  let self := Toy.trainer in
  let fp := forward_passes (hn_eval (hypernetwork self)) (batches Toy.loader) in
  data_test self = Some Toy.loader /\
  dataset_len Toy.loader <> 0%nat /\
  map (@p_th nat nat Tensor.tensor3) (fst fp) = [0; 1]%nat /\
  exists r self' tail,
    test 3 self = Ok (r, self') /\
    trace self'
    = trace self ++ EvEval :: flat_map pass_events (fst fp) ++ EvTrain :: tail /\
    List.length (filter (fun ev => match ev with EvSample _ => true | _ => false end)
                        (flat_map pass_events (fst fp)))
    = 2%nat.
Proof.
  cbn zeta.
  assert (H1 : data_test Toy.trainer = Some Toy.loader) by reflexivity.
  assert (H2 : dataset_len Toy.loader <> 0%nat) by discriminate.
  split; [exact H1|]. split; [exact H2|]. split; [reflexivity|].
  destruct (score_passes (vote Toy.trainer) 3
              (fst (forward_passes (hn_eval (hypernetwork Toy.trainer))
                                   (batches Toy.loader))))
    as [scores|e] eqn:H3.
  - destruct (test_resamples_ensemble_for_every_batch 3 Toy.trainer H1 H2 H3)
      as [r [self' [tail [Ht [Htr [_ [_ Hn]]]]]]].
    exists r, self', tail. split; [exact Ht|]. split; [exact Htr|exact Hn].
  - vm_compute in H3. discriminate H3.
Defined.

(** On the small instance the votes can be read off the logits. *)
Corollary toy_votes_from_logits (m : Tensor.mat) :
  vote_soft [m] = rmap Tensor.argmax m /\ vote_hard [m] = rmap Tensor.argmax m.
Proof. exact (proj1 (votes_from_logits linear_softmax_monotone) m). Qed.

(** With three particles the sub-sizes 5 and 10 evaluate the full
    ensemble. *)
Lemma oversized_subensemble_witness :
  let self := Toy.trainer in
  (forall loader, data_test self = Some loader ->
     Forall (fun p => List.length (Tensor.transpose (p_out p)) = 3%nat)
            (fst (forward_passes (hn_eval (hypernetwork self)) (batches loader)))) /\
  ens_sizes_of self = [1; 5; 10; 3]%nat /\
  test 10 self = test 3 self /\
  test 5 self = test 3 self.
Proof.
  cbn zeta.
  assert (H : forall loader, data_test Toy.trainer = Some loader ->
     Forall (fun p => List.length (Tensor.transpose (p_out p)) = 3%nat)
            (fst (forward_passes (hn_eval (hypernetwork Toy.trainer))
                                 (batches loader)))).
  { intros loader Hl. inversion Hl; subst. vm_compute. repeat constructor. }
  split; [exact H|].
  destruct (oversized_subensemble_is_full_ensemble Toy.trainer H)
    as [_ [_ Hens]].
  destruct (Hens eq_refl) as [Hs [H10 H5]].
  split; [exact Hs|]. split; [apply H10; lia|apply H5; lia].
Defined.

(** Below the number of members the slice does truncate: of seven members
    the sub-size 5 keeps the first five, and their vote can differ from the
    vote of all seven. *)
Lemma subsize_below_member_count_truncates :
  List.length (Tensor.transpose Toy.seven_members) = 7%nat /\
  List.length (firstn 5 (Tensor.transpose Toy.seven_members)) = 5%nat /\
  cast_vote "hard" (firstn 5 (Tensor.transpose Toy.seven_members)) = Ok [0%nat] /\
  cast_vote "hard" (firstn 7 (Tensor.transpose Toy.seven_members)) = Ok [1%nat].
Proof.
  split; [reflexivity|]. split; [reflexivity|].
  split; vm_compute; reflexivity.
Qed.

(** An unknown dataset and an unknown vote mode pass the constructor; the
    run stops later, inside [train]. *)
Lemma unsupported_strings_pass_configuration :
  (exists t : ToyTrainer, __init__ (Toy.args3 "svhn" "majority") = Ok t) /\
  ~ (exists e, __init__ (Toy.args3 "svhn" "majority")
               = (Raise e : result ToyTrainer)) /\
  main (Toy.args3 "svhn" "majority")
  = (Raise (AttributeError "data_train") : result (unit * ToyTrainer)) /\
  (exists t : ToyTrainer, __init__ (Toy.args3 "mnist" "majority") = Ok t) /\
  main (Toy.args3 "mnist" "majority")
  = (Raise (UnboundLocalError "vote") : result (unit * ToyTrainer)).
Proof.
  split; [eexists; reflexivity|].
  split; [intros [e He]; vm_compute in He; discriminate He|].
  split; [vm_compute; reflexivity|].
  split; [eexists; reflexivity|].
  vm_compute. reflexivity.
Qed.

(** The run with the dataset 'svhn' stops at the first read of
    [data_train]. *)
Lemma unsupported_dataset_witness :
  args.dataset (Toy.args3 "svhn" "hard") <> "mnist"%string /\
  args.dataset (Toy.args3 "svhn" "hard") <> "cifar"%string /\
  main (Toy.args3 "svhn" "hard")
  = (Raise (AttributeError "data_train") : result (unit * ToyTrainer)).
Proof.
  assert (H1 : args.dataset (Toy.args3 "svhn" "hard") <> "mnist"%string)
    by discriminate.
  assert (H2 : args.dataset (Toy.args3 "svhn" "hard") <> "cifar"%string)
    by discriminate.
  split; [exact H1|]. split; [exact H2|].
  exact (proj1 (proj2 unsupported_strings_fail_late_not_at_configuration)
           (Toy.args3 "svhn" "hard") H1 H2).
Defined.

(** Three copies of one particle, bandwidth floor 1/100. *)
Lemma identical_particles_witness :
  0 < 1 # 100 /\
  (exists K,
      Stein.kernel_matrix (fun e => 1 + e) (1 # 100) (repeat [1; 2 # 3] 3) = Some K /\
      List.length K = 3%nat) /\
  (exists r,
      Stein.repulsion (fun e => 1 + e) (1 # 100) (repeat [1; 2 # 3] 3) [1; 2 # 3]
      = Some r /\
      Forall (fun q => q == 0) r).
Proof.
  assert (H : 0 < 1 # 100) by reflexivity.
  split; [exact H|].
  destruct (identical_particles_kernel_defined_repulsion_zero
              (fun e => 1 + e) [1; 2 # 3] 3 H)
    as [[K [HK [HL _]]] [[r [Hr [_ Hz]]] _]].
  split; [exists K; split; assumption|exists r; split; assumption].
Defined.

(** Without a positive floor the bandwidth of identical particles is zero
    and the kernel is not defined. *)
Lemma unclamped_bandwidth_degenerates (kexp : Q -> Q) :
  Stein.kernel_matrix kexp 0 (repeat [1; 2 # 3] 3) = None.
Proof. reflexivity. Qed.

(** * Further properties of the voting code *)

Section MoreModeFacts.

Import Tensor.

Local Abbreviation count := (count_occ Nat.eq_dec).

Lemma count_two_le (l : list nat) (a b : nat) :
  a <> b -> (count l a + count l b <= List.length l)%nat.
Proof.
  intros Hab. induction l as [|x l IH]; [cbn; lia|].
  cbn [count_occ List.length].
  destruct (Nat.eq_dec x a), (Nat.eq_dec x b); subst; try congruence; lia.
Qed.

(** A label chosen by more than half of the row is its mode. *)
Lemma mode_majority (row : list nat) (v : nat) :
  (List.length row < 2 * count row v)%nat -> mode row = v.
Proof.
  intros Hmaj.
  assert (Hne : row <> []) by (intros ->; cbn in Hmaj; lia).
  destruct (mode_spec Hne) as [_ [Hmax _]].
  destruct (Nat.eq_dec (mode row) v) as [Heq|Hneq]; [exact Heq|exfalso].
  pose proof (count_two_le row Hneq) as Hsum.
  specialize (Hmax v). lia.
Qed.

(** The mode depends on the labels of the row, not on their order. *)
Lemma mode_permutation (l l' : list nat) :
  Permutation l l' -> mode l = mode l'.
Proof.
  intros Hperm.
  destruct l as [|x l0].
  - apply Permutation_nil in Hperm. now subst.
  - assert (Hne : x :: l0 <> []) by discriminate.
    assert (Hne' : l' <> []).
    { intros ->. apply Permutation_sym, Permutation_nil in Hperm. discriminate. }
    pose proof (proj1 (Permutation_count_occ Nat.eq_dec _ _) Hperm) as Hcnt.
    destruct (mode_spec Hne) as [_ [Hmax Hleast]].
    destruct (mode_spec Hne') as [_ [Hmax' Hleast']].
    set (m := mode (x :: l0)) in *. set (m' := mode l') in *.
    assert (Heq : count (x :: l0) m' = count (x :: l0) m).
    { apply Nat.le_antisymm; [apply Hmax|].
      rewrite !Hcnt. apply Hmax'. }
    apply Nat.le_antisymm.
    + apply Hleast. exact Heq.
    + apply Hleast'. rewrite <- !Hcnt. now symmetry.
Qed.

End MoreModeFacts.

Section MoreVoteTheorems.

Import Tensor.

Context {FN : Functional}.

Local Abbreviation count := (count_occ Nat.eq_dec).

Lemma vote_hard_of_labels (outputs : tensor3) (labels : list (list nat)) :
  rmap (rmap argmax) (map (map softmax) outputs) = Ok labels ->
  vote_hard outputs = Ok (mode0 labels).
Proof. intros H. unfold vote_hard. now rewrite H. Qed.

Lemma mode0_nth (labels : list (list nat)) (B b : nat) :
  labels <> [] -> Forall (fun r => List.length r = B) labels -> (b < B)%nat ->
  nth b (mode0 labels) 0%nat = mode (map (fun r => nth b r 0%nat) labels).
Proof.
  intros Hne Hrect Hb. unfold mode0.
  rewrite (nth_indep _ 0%nat (mode []))
    by (rewrite length_map, (transpose_length Hne Hrect); exact Hb).
  rewrite (map_nth mode).
  now rewrite (transpose_nth 0%nat Hne Hrect Hb).
Qed.

(** In 'hard' mode a label that more than half of the members choose for
    an example is the vote for that example. *)
Theorem hard_vote_returns_strict_majority_label
    (outputs : tensor3) (labels : list (list nat)) (B : nat) :
  Forall (fun m => List.length m = B) outputs ->
  rmap (rmap argmax) (map (map softmax) outputs) = Ok labels ->
  exists votes,
    vote_hard outputs = Ok votes /\
    forall (b v : nat),
      (b < B)%nat ->
      (List.length labels < 2 * count (map (fun r => nth b r 0%nat) labels) v)%nat ->
      nth b votes 0%nat = v.
Proof.
  intros Hrect Hlab. exists (mode0 labels).
  split; [now apply vote_hard_of_labels|].
  intros b v Hb Hmaj.
  assert (Hne : labels <> []) by (intros ->; cbn in Hmaj; lia).
  pose proof (member_labels_rectangular Hrect Hlab) as Hlrect.
  rewrite (mode0_nth Hne Hlrect Hb).
  apply mode_majority. now rewrite length_map.
Qed.

Lemma rmap_cons_ok {A B} (f : A -> result B) (x : A) (l : list A) (r : list B) :
  rmap f (x :: l) = Ok r ->
  exists y ys, f x = Ok y /\ rmap f l = Ok ys /\ r = y :: ys.
Proof.
  cbn [rmap]. intros H.
  destruct (f x) as [y|e]; cbn in H; [|discriminate].
  destruct (rmap f l) as [ys|e]; cbn in H; [|discriminate].
  inversion H; subst. now exists y, ys.
Qed.

Lemma rmap_cons_intro {A B} (f : A -> result B) (x : A) (l : list A)
    (y : B) (ys : list B) :
  f x = Ok y -> rmap f l = Ok ys -> rmap f (x :: l) = Ok (y :: ys).
Proof. intros Hx Hl. cbn [rmap]. now rewrite Hx, Hl. Qed.

Lemma rmap_permutation {A B} (f : A -> result B) (l l' : list A) :
  Permutation l l' ->
  forall r, rmap f l = Ok r -> exists r', rmap f l' = Ok r' /\ Permutation r r'.
Proof.
  induction 1 as [|x l l' _ IH|x y l|l l' l'' _ IH1 _ IH2]; intros r Hr.
  - exists r. split; [exact Hr|]. cbn in Hr. inversion Hr. constructor.
  - apply rmap_cons_ok in Hr. destruct Hr as [y [ys [Hx [Hl ->]]]].
    destruct (IH ys Hl) as [ys' [Hl' Hp]].
    exists (y :: ys'). split; [now apply rmap_cons_intro|now constructor].
  - apply rmap_cons_ok in Hr. destruct Hr as [b [bs [Hy [Hl ->]]]].
    apply rmap_cons_ok in Hl. destruct Hl as [a [as_ [Hx [Hl ->]]]].
    exists (a :: b :: as_). split; [|apply perm_swap].
    apply rmap_cons_intro; [exact Hx|]. now apply rmap_cons_intro.
  - destruct (IH1 r Hr) as [r' [Hr' Hp]].
    destruct (IH2 r' Hr') as [r'' [Hr'' Hp']].
    exists r''. split; [exact Hr''|]. eapply Permutation_trans; eassumption.
Qed.

(** The hard vote treats the members symmetrically: evaluating the same
    members in another order gives the same votes. *)
Theorem hard_vote_ignores_member_order
    (outputs outputs' : tensor3) (labels : list (list nat)) (B : nat) :
  Permutation outputs outputs' ->
  Forall (fun m => List.length m = B) outputs ->
  rmap (rmap argmax) (map (map softmax) outputs) = Ok labels ->
  vote_hard outputs' = vote_hard outputs.
Proof.
  intros Hperm Hrect Hlab.
  destruct (rmap_permutation (rmap argmax)
              (Permutation_map (map softmax) Hperm) Hlab)
    as [labels' [Hlab' Hlp]].
  rewrite (vote_hard_of_labels _ Hlab), (vote_hard_of_labels _ Hlab').
  f_equal.
  pose proof (member_labels_rectangular Hrect Hlab) as Hlrect.
  assert (Hlrect' : Forall (fun r => List.length r = B) labels')
    by (eapply Permutation_Forall; eassumption).
  destruct labels as [|r0 rs].
  - apply Permutation_nil in Hlp. now subst.
  - assert (Hne : r0 :: rs <> []) by discriminate.
    assert (Hne' : labels' <> []).
    { intros ->. apply Permutation_sym, Permutation_nil in Hlp. discriminate. }
    apply (nth_ext _ _ 0%nat 0%nat).
    + unfold mode0. rewrite !length_map.
      now rewrite (transpose_length Hne Hlrect), (transpose_length Hne' Hlrect').
    + intros b Hb.
      assert (HbB : (b < B)%nat).
      { unfold mode0 in Hb. rewrite length_map in Hb.
        now rewrite (transpose_length Hne' Hlrect') in Hb. }
      rewrite (mode0_nth Hne' Hlrect' HbB), (mode0_nth Hne Hlrect HbB).
      apply mode_permutation. apply Permutation_map. now apply Permutation_sym.
Qed.

End MoreVoteTheorems.

(** * Further properties of the trainer *)

Section MoreTestFacts.

Import Tensor.

Context {HN GE latent theta data : Type}.
Context {HNA : HyperNetworkAPI HN latent theta data}
        {GEA : GradientEstimatorAPI GE HN theta}
        {DA : DataAPI HN data}
        {FN : Functional}.

Local Abbreviation Trainer := (@Trainer HN GE latent theta data).
Local Abbreviation M := (@M HN GE latent theta data).
Local Abbreviation event := (@event latent theta data).
Local Abbreviation pass := (@pass latent theta data).

(** What a returning call of [test] went through. *)
Lemma test_ok_inv (ens_size : nat) (self self' : Trainer)
    (loss acc : Q) (correct : nat) :
  test ens_size self = Ok ((loss, acc, correct), self') ->
  exists loader scores,
    let fp := forward_passes (hn_eval (hypernetwork self)) (batches loader) in
    let n := inject_Z (Z.of_nat (dataset_len loader)) in
    data_test self = Some loader /\
    score_passes (vote self) ens_size (fst fp) = Ok scores /\
    dataset_len loader <> 0%nat /\
    loss = Qsum (map fst scores) / n /\
    correct = fold_left Nat.add (map snd scores) 0%nat /\
    acc = inject_Z (Z.of_nat correct) / n /\
    update_best (Fin loss) (Fin acc)
      (advance (hn_train (snd fp)) (grad_estimator self)
               (EvEval :: flat_map pass_events (fst fp) ++ [EvTrain]) self)
    = Ok (tt, self').
Proof.
  intros H. rewrite test_unfold in H.
  destruct (data_test self) as [loader|]; [|discriminate].
  cbn zeta in H.
  destruct (score_passes _ _ _) as [scores|e] eqn:Hsc; [|discriminate].
  destruct (Nat.eqb (dataset_len loader) 0) eqn:Hlen; [discriminate|].
  apply Nat.eqb_neq in Hlen.
  destruct (update_best _ _ _) as [[[] st]|e] eqn:Hu; [|discriminate].
  inversion H; subst. clear H.
  exists loader, scores. cbn zeta. repeat split; auto.
Qed.

Lemma update_best_frame (l a : fnum) (self self' : Trainer) :
  update_best l a self = Ok (tt, self') ->
  config self' = config self /\
  grad_estimator self' = grad_estimator self /\
  hypernetwork self' = hypernetwork self.
Proof.
  unfold update_best. intros H.
  destruct (flt l (best_test_loss self)) eqn:Hl;
    destruct (fgt a (best_test_acc self)) eqn:Ha; cbn in H;
    rewrite ?Hl, ?Ha in H; cbn in H; rewrite ?Hl, ?Ha in H;
    inversion H; subst; repeat split.
Qed.

Lemma flt_irrefl (a : fnum) : flt a a = false.
Proof.
  destruct a as [x| | |]; cbn; try reflexivity.
  destruct (Qlt_bool x x) eqn:E; [|reflexivity].
  apply Qlt_bool_iff in E. now apply Qlt_irrefl in E.
Qed.

(** After [test] has returned, the loss it returns is not below the best
    loss and the accuracy it returns is not above the best accuracy: the
    best metrics are at least as good as the latest measurement. *)
Theorem best_metrics_dominate_latest_measurement
    (ens_size : nat) (self self' : Trainer) (loss acc : Q) (correct : nat) :
  test ens_size self = Ok ((loss, acc, correct), self') ->
  flt (Fin loss) (best_test_loss self') = false /\
  fgt (Fin acc) (best_test_acc self') = false.
Proof.
  intros H. apply test_ok_inv in H.
  destruct H as [loader [scores [_ [_ [_ [_ [_ [_ Hu]]]]]]]].
  match type of Hu with
  | update_best ?l ?a ?st = _ =>
      destruct (update_best_spec l a st) as [st' [Hu' [Hl [Ha _]]]]
  end.
  rewrite Hu in Hu'. inversion Hu'; subst st'. clear Hu'.
  rewrite Hl, Ha. split.
  - destruct (flt (Fin loss) _) eqn:E; [apply flt_irrefl|exact E].
  - destruct (fgt (Fin acc) _) eqn:E; [apply flt_irrefl|exact E].
Qed.

Lemma pass_events_no_training (ps : list pass) :
  Forall (fun ev => is_training_call ev = false) (flat_map pass_events ps).
Proof.
  induction ps as [|p ps IH]; [constructor|].
  cbn [flat_map pass_events app]. repeat constructor. exact IH.
Qed.

Lemma pass_events_no_new_best (ps : list pass) :
  Forall (fun ev : event => ev <> EvNewBest) (flat_map pass_events ps).
Proof.
  induction ps as [|p ps IH]; [constructor|].
  cbn [flat_map pass_events app]. repeat constructor; try discriminate.
  exact IH.
Qed.

(** [test] reports a new best exactly when one of the two metrics
    improves: the calls it adds to the trace end with the switch back to
    train mode, followed by the 'new best' line if and only if the new loss
    is below the best loss or the new accuracy above the best accuracy. *)
Theorem new_best_reported_iff_metric_improves
    (ens_size : nat) (self self' : Trainer) (loss acc : Q) (correct : nat) :
  test ens_size self = Ok ((loss, acc, correct), self') ->
  exists evs,
    Forall (fun ev : event => ev <> EvNewBest) evs /\
    trace self'
    = trace self ++ evs ++
      EvTrain ::
      (if flt (Fin loss) (best_test_loss self) || fgt (Fin acc) (best_test_acc self)
       then [EvNewBest] else []).
Proof.
  intros H. apply test_ok_inv in H.
  destruct H as [loader [scores [_ [_ [_ [_ [_ [_ Hu]]]]]]]].
  match type of Hu with
  | update_best ?l ?a ?st = _ =>
      destruct (update_best_spec l a st) as [st' [Hu' [_ [_ [_ Htr]]]]]
  end.
  rewrite Hu in Hu'. inversion Hu'; subst st'. clear Hu'.
  exists (EvEval :: flat_map pass_events
                    (fst (forward_passes (hn_eval (hypernetwork self))
                                         (batches loader)))).
  split; [constructor; [discriminate|apply pass_events_no_new_best]|].
  rewrite Htr. cbn [trace advance best_test_loss best_test_acc].
  rewrite <- app_assoc. f_equal. cbn [app]. f_equal.
  rewrite <- app_assoc. reflexivity.
Qed.

(** An evaluation never trains: the calls that [test] adds to the trace
    contain no estimator call, no optimizer call and no statistics line,
    and the estimator object and the configuration are as before. *)
Theorem evaluation_never_trains
    (ens_size : nat) (self self' : Trainer) (r : Q * Q * nat) :
  test ens_size self = Ok (r, self') ->
  (exists evs,
      trace self' = trace self ++ evs /\
      Forall (fun ev => is_training_call ev = false) evs) /\
  grad_estimator self' = grad_estimator self /\
  config self' = config self.
Proof.
  destruct r as [[loss acc] correct]. intros H. apply test_ok_inv in H.
  destruct H as [loader [scores [_ [_ [_ [_ [_ [_ Hu]]]]]]]].
  destruct (update_best_frame _ _ _ Hu) as [Hcfg [Hge _]].
  match type of Hu with
  | update_best ?l ?a ?st = _ =>
      destruct (update_best_spec l a st) as [st' [Hu' [_ [_ [_ Htr]]]]]
  end.
  rewrite Hu in Hu'. inversion Hu'; subst st'. clear Hu'.
  split; [|split; [exact Hge|exact Hcfg]].
  eexists. split.
  - rewrite Htr. cbn [trace advance]. rewrite <- app_assoc. reflexivity.
  - cbn beta. apply Forall_app. split.
    + constructor; [reflexivity|]. apply Forall_app. split.
      * apply pass_events_no_training.
      * repeat constructor.
    + destruct (_ || _); repeat constructor.
Qed.

(** The state in which an evaluation leaves the hypernetwork does not
    depend on the ensemble sub-size: every evaluation makes the same calls
    on it, one latent draw per test batch. *)
Theorem evaluation_leaves_hypernetwork_independent_of_subsize
    (n n' : nat) (self s1 s2 : Trainer) (r1 r2 : Q * Q * nat) :
  test n self = Ok (r1, s1) ->
  test n' self = Ok (r2, s2) ->
  hypernetwork s1 = hypernetwork s2 /\
  List.length (filter is_sample (trace s1))
  = List.length (filter is_sample (trace s2)).
Proof.
  destruct r1 as [[l1 a1] c1], r2 as [[l2 a2] c2]. intros H1 H2.
  apply test_ok_inv in H1, H2.
  destruct H1 as [loader [sc1 [Hdt [_ [_ [_ [_ [_ Hu1]]]]]]]].
  destruct H2 as [loader' [sc2 [Hdt' [_ [_ [_ [_ [_ Hu2]]]]]]]].
  rewrite Hdt in Hdt'. inversion Hdt'; subst loader'. clear Hdt'.
  match type of Hu1 with
  | update_best ?l ?a ?st = _ =>
      destruct (update_best_spec l a st) as [t1 [Hu1' [_ [_ [Hh1 Ht1]]]]]
  end.
  match type of Hu2 with
  | update_best ?l ?a ?st = _ =>
      destruct (update_best_spec l a st) as [t2 [Hu2' [_ [_ [Hh2 Ht2]]]]]
  end.
  rewrite Hu1 in Hu1'. inversion Hu1'; subst t1. clear Hu1'.
  rewrite Hu2 in Hu2'. inversion Hu2'; subst t2. clear Hu2'.
  split; [now rewrite Hh1, Hh2|].
  rewrite Ht1, Ht2. rewrite !filter_app, !length_app.
  f_equal. destruct (_ || _), (_ || _); reflexivity.
Qed.

End MoreTestFacts.

Section MoreTrainerFacts.

Import Tensor.

Context {HN GE latent theta data : Type}.
Context {HNA : HyperNetworkAPI HN latent theta data}
        {GEA : GradientEstimatorAPI GE HN theta}
        {DA : DataAPI HN data}
        {FN : Functional}.

Local Abbreviation Trainer := (@Trainer HN GE latent theta data).
Local Abbreviation M := (@M HN GE latent theta data).
Local Abbreviation event := (@event latent theta data).
Local Abbreviation pass := (@pass latent theta data).
Local Abbreviation config_same := (@config_same HN GE latent theta data).

(** *** The number of correct votes *)

Lemma count_correct_le (v target : list nat) (c : nat) :
  count_correct v target = Ok c -> (c <= List.length target)%nat.
Proof.
  unfold count_correct. destruct (Nat.eqb _ _); [|discriminate].
  intros H. inversion H; subst. clear H.
  eapply Nat.le_trans; [apply filter_length_le|].
  rewrite length_combine. lia.
Qed.

Lemma score_batch_correct_le (v : string) (n : nat) (out : tensor3)
    (target : list nat) (l : Q) (c : nat) :
  score_batch v n out target = Ok (l, c) -> (c <= List.length target)%nat.
Proof.
  unfold score_batch. intros H.
  destruct (stack _) as [losses|e]; cbn in H; [|discriminate].
  destruct (cast_vote v _) as [votes|e]; cbn in H; [|discriminate].
  destruct (count_correct votes target) as [k|e] eqn:Hc; cbn in H; [|discriminate].
  inversion H; subst. eapply count_correct_le. exact Hc.
Qed.

Lemma fold_add_shift (l : list nat) (a : nat) :
  fold_left Nat.add l a = (a + list_sum l)%nat.
Proof.
  revert a. induction l as [|x l IH]; intros a; [cbn; lia|].
  cbn [fold_left]. rewrite IH.
  change (list_sum (x :: l)) with (x + list_sum l)%nat. lia.
Qed.

Lemma score_passes_correct_le (v : string) (n : nat) (ps : list pass)
    (scores : list (Q * nat)) :
  score_passes v n ps = Ok scores ->
  (list_sum (map snd scores)
   <= list_sum (map (fun p => List.length (p_target p)) ps))%nat.
Proof.
  intros H. apply rmap_Forall2 in H.
  induction H as [|p sc ps' scs Hp _ IH]; [cbn; lia|].
  cbn [map]. destruct sc as [l c]. cbn [snd].
  apply score_batch_correct_le in Hp.
  change (list_sum (c :: map snd scs)) with (c + list_sum (map snd scs))%nat.
  match goal with
  | |- (_ <= list_sum (?h :: ?t))%nat =>
      change (list_sum (h :: t)) with (h + list_sum t)%nat
  end. lia.
Qed.

(** The number of correct votes that [test] returns is at most the number
    of examples the test loader yields, the accuracy is not negative, and
    it is at most 1 when [len(dataset)] is not below that number. *)
Theorem correct_votes_bounded_by_examples
    (ens_size : nat) (self self' : Trainer) (loss acc : Q) (correct : nat) :
  test ens_size self = Ok ((loss, acc, correct), self') ->
  exists loader,
    data_test self = Some loader /\
    (correct <= n_examples (batches loader))%nat /\
    0 <= acc /\
    ((n_examples (batches loader) <= dataset_len loader)%nat -> acc <= 1).
Proof.
  intros H. apply test_ok_inv in H.
  destruct H as [loader [scores [Hdt [Hsc [Hlen [_ [Hc [Ha _]]]]]]]].
  exists loader. split; [exact Hdt|].
  assert (Hle : (correct <= n_examples (batches loader))%nat).
  { rewrite Hc, fold_add_shift. cbn [Nat.add].
    eapply Nat.le_trans; [eapply score_passes_correct_le; exact Hsc|].
    unfold n_examples.
    rewrite <- (forward_passes_batches (batches loader)
                  (hn_eval (hypernetwork self))) at 2.
    rewrite map_map. cbn [snd]. apply Nat.le_refl. }
  assert (Hpos : 0 < inject_Z (Z.of_nat (dataset_len loader))).
  { unfold Qlt, inject_Z. cbn [Qnum Qden]. lia. }
  split; [exact Hle|]. rewrite Ha. split.
  - apply Qle_shift_div_l; [exact Hpos|].
    unfold Qle, inject_Z. cbn [Qnum Qden Qmult]. lia.
  - intros Hn. apply Qle_shift_div_r; [exact Hpos|].
    unfold Qle, inject_Z. cbn [Qnum Qden Qmult]. lia.
Qed.

Lemma correct_votes_bounded_by_range_helper
    (ens_size : nat) (self self' : Trainer) (loss acc : Q) (correct : nat) :
  test ens_size self = Ok ((loss, acc, correct), self') ->
  exists loader,
    data_test self = Some loader /\
    0 <= acc /\
    ((n_examples (batches loader) <= dataset_len loader)%nat -> acc <= 1).
Proof.
  intros H. apply test_ok_inv in H.
  destruct H as [loader [scores [Hdt [Hsc [Hlen [_ [Hc [Ha _]]]]]]]].
  exists loader. split; [exact Hdt|].
  assert (Hle : (correct <= n_examples (batches loader))%nat).
  { rewrite Hc, fold_add_shift. cbn [Nat.add].
    eapply Nat.le_trans; [eapply score_passes_correct_le; exact Hsc|].
    unfold n_examples.
    rewrite <- (forward_passes_batches (batches loader)
                  (hn_eval (hypernetwork self))) at 2.
    rewrite map_map. cbn [snd]. apply Nat.le_refl. }
  assert (Hpos : 0 < inject_Z (Z.of_nat (dataset_len loader))).
  { unfold Qlt, inject_Z. cbn [Qnum Qden]. lia. }
  rewrite Ha. split.
  - apply Qle_shift_div_l; [exact Hpos|].
    unfold Qle, inject_Z. cbn [Qnum Qden Qmult]. lia.
  - intros Hn. apply Qle_shift_div_r; [exact Hpos|].
    unfold Qle, inject_Z. cbn [Qnum Qden Qmult]. lia.
Qed.

(** *** The exceptions of [test] *)

Lemma forward_passes_cons (hn : HN) (b : data * list nat)
    (bs : list (data * list nat)) :
  exists p ps, fst (forward_passes hn (b :: bs)) = p :: ps.
Proof.
  destruct b as [d target]. cbn [forward_passes].
  destruct (sample_generator_input hn) as [lat hn1].
  destruct (sample_parameters lat hn1) as [th hn2].
  destruct (forward_model d (set_parameters_to_model th hn2)) as [out hn4].
  destruct (forward_passes hn4 bs) as [ps hn'].
  now eexists; eexists.
Qed.

(** A test set of length zero makes [test] raise [ZeroDivisionError],
    whatever the vote mode and the sub-size, as soon as the batches the
    loader still yields can be scored; in particular when it yields none. *)
Theorem empty_test_set_raises_zero_division
    (ens_size : nat) (self : Trainer) (loader : Loader data) :
  data_test self = Some loader ->
  dataset_len loader = 0%nat ->
  ((exists scores,
       score_passes (vote self) ens_size
         (fst (forward_passes (hn_eval (hypernetwork self)) (batches loader)))
       = Ok scores) ->
   test ens_size self = Raise ZeroDivisionError) /\
  (batches loader = [] -> test ens_size self = Raise ZeroDivisionError).
Proof.
  intros Hdt Hlen.
  assert (Hgen : (exists scores,
       score_passes (vote self) ens_size
         (fst (forward_passes (hn_eval (hypernetwork self)) (batches loader)))
       = Ok scores) -> test ens_size self = Raise ZeroDivisionError).
  { intros [scores Hsc]. rewrite test_unfold, Hdt. cbn zeta.
    now rewrite Hsc, Hlen. }
  split; [exact Hgen|].
  intros Hb. apply Hgen. rewrite Hb. now exists [].
Qed.

(** With the test loader never assigned, [test] raises an attribute
    error; that is the state in which the constructor leaves the trainer
    for a dataset other than 'mnist' and 'cifar'. *)
Theorem unset_test_loader_raises_attribute_error :
  (forall (ens_size : nat) (self : Trainer),
      data_test self = None ->
      test ens_size self = Raise (AttributeError "data_test")) /\
  (forall (a : args.t) (ens_size : nat),
      args.dataset a <> "mnist"%string -> args.dataset a <> "cifar"%string ->
      exists t : Trainer,
        __init__ a = Ok t /\
        test ens_size t = Raise (AttributeError "data_test")).
Proof.
  assert (Hnone : forall (ens_size : nat) (self : Trainer),
             data_test self = None ->
             test ens_size self = Raise (AttributeError "data_test")).
  { intros ens_size self H. now rewrite test_unfold, H. }
  split; [exact Hnone|].
  intros a ens_size Hm Hc. apply String.eqb_neq in Hm, Hc.
  destruct (init_returns a) as [t [Hi [_ [_ [_ Hn]]]]].
  exists t. split; [exact Hi|]. apply Hnone. now destruct (Hn Hm Hc).
Qed.

(** A sub-size of zero leaves no member: [torch.stack] refuses the empty
    list of losses and [test] raises on the first batch, before any vote is
    cast. *)
Theorem empty_subensemble_raises_on_first_batch
    (self : Trainer) (loader : Loader data) :
  data_test self = Some loader ->
  batches loader <> [] ->
  test 0 self = Raise (RuntimeError "stack expects a non-empty TensorList").
Proof.
  intros Hdt Hb. rewrite test_unfold, Hdt. cbn zeta.
  destruct (batches loader) as [|b bs]; [congruence|].
  destruct (forward_passes_cons (hn_eval (hypernetwork self)) b bs)
    as [p [ps Hfp]].
  rewrite Hfp. reflexivity.
Qed.

End MoreTrainerFacts.

Section MoreTrainFacts.

Import Tensor.

Context {HN GE latent theta data : Type}.
Context {HNA : HyperNetworkAPI HN latent theta data}
        {GEA : GradientEstimatorAPI GE HN theta}
        {DA : DataAPI HN data}
        {FN : Functional}.

Local Abbreviation Trainer := (@Trainer HN GE latent theta data).
Local Abbreviation M := (@M HN GE latent theta data).
Local Abbreviation event := (@event latent theta data).
Local Abbreviation pass := (@pass latent theta data).
Local Abbreviation config_same := (@config_same HN GE latent theta data).

Lemma bind_ok_inv {A B} (m : M A) (k : A -> M B) (self self' : Trainer) (b : B) :
  bind m k self = Ok (b, self') ->
  exists a s1, m self = Ok (a, s1) /\ k a s1 = Ok (b, self').
Proof.
  unfold bind. intros H.
  destruct (m self) as [[a s1]|e]; [|discriminate].
  now exists a, s1.
Qed.

(** *** The loop over the training batches *)

Lemma train_epoch_runs_train_loop (epoch : nat) :
  train_epoch epoch
  = bind (get_attr data_train "data_train") (fun loader =>
    bind (train_loop epoch (batches loader)) (fun _ =>
    bind (gets ens_sizes_of) (fun ens_sizes =>
    bind (evaluate_as_ensemble ens_sizes epoch) (fun _ =>
    bind (gets test_uncertainty) (fun tu =>
    if tu then
      bind (gets particles) (fun p =>
      for_each [5; 10; p]%nat (uncertainty_step epoch))
    else ret tt))))).
Proof. reflexivity. Qed.

Lemma train_batch_advance (epoch batch_idx : nat) (d : data) (target : list nat)
    (self : Trainer) :
  let hn0 := hypernetwork self in
  let lat := fst (sample_generator_input hn0) in
  let hn1 := snd (sample_generator_input hn0) in
  let th := fst (sample_parameters lat hn1) in
  let hn2 := snd (sample_parameters lat hn1) in
  let hn3 := set_parameters_to_model th hn2 in
  let out := fst (forward_model d hn3) in
  let hn4 := snd (forward_model d hn3) in
  let cg := compute_gradients (transpose out) th target (grad_estimator self) in
  let ag := apply_gradients (snd cg) (zero_grad hn4) in
  train_batch epoch batch_idx (d, target) self
  = Ok (tt, advance (update_step (snd ag)) (fst ag)
              ([EvSample lat; EvGenerate lat th; EvInstall th; EvForward d;
                EvComputeGradients th; EvZeroGrad; EvApplyGradients;
                EvUpdateStep] ++
               (if Nat.eqb (batch_idx mod 100) 0
                then [EvLog epoch batch_idx (mean (fst cg))] else []))
              self).
Proof.
  cbn zeta. unfold train_batch.
  rewrite <- (advance_nil self) at 1.
  unfold bind at 1. rewrite hn_call_advance.
  unfold bind at 1. rewrite hn_call_advance.
  unfold bind at 1. rewrite hn_do_advance.
  unfold bind at 1. rewrite hn_call_advance.
  unfold bind at 1. rewrite compute_gradients_call_advance.
  unfold bind at 1. rewrite hn_do_advance.
  unfold bind at 1. rewrite apply_gradients_call_advance.
  unfold bind at 1. rewrite hn_do_advance.
  cbn [app].
  destruct (Nat.eqb (batch_idx mod 100) 0).
  - rewrite emit_advance. reflexivity.
  - reflexivity.
Qed.

Lemma train_batch_trace (epoch batch_idx : nat) (b : data * list nat)
    (self : Trainer) :
  exists self' lat th loss,
    train_batch epoch batch_idx b self = Ok (tt, self') /\
    trace self'
    = trace self ++
      [EvSample lat; EvGenerate lat th; EvInstall th; EvForward (fst b);
       EvComputeGradients th; EvZeroGrad; EvApplyGradients; EvUpdateStep] ++
      (if Nat.eqb (batch_idx mod 100) 0
       then [EvLog epoch batch_idx loss] else []).
Proof.
  destruct b as [d target].
  eexists. eexists. eexists. eexists.
  split; [apply train_batch_advance|]. reflexivity.
Qed.

Lemma combine_map_fst {A B} (l1 : list A) (l2 : list B) :
  List.length l1 = List.length l2 -> map fst (combine l1 l2) = l1.
Proof.
  revert l2. induction l1 as [|x l1 IH]; intros [|y l2] H;
    try discriminate; [reflexivity|].
  cbn. f_equal. apply IH. now inversion H.
Qed.

Lemma enumerate_indices {X} (l : list X) :
  map fst (enumerate l) = seq 0 (List.length l).
Proof. unfold enumerate. apply combine_map_fst. now rewrite length_seq. Qed.

Lemma training_loop_trace (epoch : nat) (ibs : list (nat * (data * list nat))) :
  forall self : Trainer,
  exists self' evs,
    for_each ibs (fun ib => train_batch epoch (fst ib) (snd ib)) self
    = Ok (tt, self') /\
    trace self' = trace self ++ evs /\
    List.length (filter is_update_step evs) = List.length ibs /\
    List.length (filter is_sample evs) = List.length ibs /\
    logged_indices evs
    = filter (fun i => Nat.eqb (i mod 100) 0) (map fst ibs).
Proof.
  induction ibs as [|[i b] ibs IH]; intros self.
  - exists self, []. cbn. rewrite app_nil_r. auto.
  - destruct (train_batch_trace epoch i b self) as [s1 [lat [th [loss [Hb Ht]]]]].
    destruct (IH s1) as [s2 [evs [Hl [Ht2 [Hu [Hs Hlog]]]]]].
    exists s2. eexists. split; [|split; [|split; [|split]]].
    + cbn [for_each]. unfold bind. cbn [fst snd]. rewrite Hb. exact Hl.
    + rewrite Ht2, Ht, <- app_assoc. reflexivity.
    + rewrite !filter_app, !length_app, Hu. cbn [filter is_update_step].
      destruct (Nat.eqb (i mod 100) 0); cbn; lia.
    + rewrite !filter_app, !length_app, Hs. cbn [filter is_sample].
      destruct (Nat.eqb (i mod 100) 0); cbn; lia.
    + unfold logged_indices in *. rewrite !flat_map_app, Hlog.
      cbn [map fst filter flat_map app].
      destruct (Nat.eqb (i mod 100) 0); reflexivity.
Qed.

(** The training loop of an epoch never raises; over [k] batches it steps
    the optimizers exactly [k] times, draws exactly [k] latent batches, and
    prints the statistics exactly for the batch indices 0, 100, 200, ...
    below [k]. *)
Theorem training_loop_steps_once_per_batch
    (epoch : nat) (bs : list (data * list nat)) (self : Trainer) :
  exists self' evs,
    train_loop epoch bs self = Ok (tt, self') /\
    trace self' = trace self ++ evs /\
    List.length (filter is_update_step evs) = List.length bs /\
    List.length (filter is_sample evs) = List.length bs /\
    logged_indices evs
    = filter (fun i => Nat.eqb (i mod 100) 0) (seq 0 (List.length bs)).
Proof.
  destruct (training_loop_trace epoch (enumerate bs) self)
    as [self' [evs [Hl [Ht [Hu [Hs Hlog]]]]]].
  exists self', evs. unfold train_loop.
  assert (Hlen : List.length (enumerate bs) = List.length bs).
  { rewrite <- (length_map fst), enumerate_indices. apply length_seq. }
  rewrite Hlen in Hu, Hs. rewrite enumerate_indices in Hlog. auto.
Qed.

(** *** The test lines of [evaluate_as_ensemble] *)

Lemma printed_sizes_passes (ps : list pass) :
  printed_sizes (flat_map pass_events ps) = [].
Proof.
  induction ps as [|p ps IH]; [reflexivity|].
  unfold printed_sizes in *. cbn [flat_map pass_events app]. exact IH.
Qed.

Lemma test_prints_nothing (ens_size : nat) (self self' : Trainer)
    (r : Q * Q * nat) :
  test ens_size self = Ok (r, self') ->
  exists evs, trace self' = trace self ++ evs /\ printed_sizes evs = [].
Proof.
  destruct r as [[loss acc] correct]. intros H. apply test_ok_inv in H.
  destruct H as [loader [scores [_ [_ [_ [_ [_ [_ Hu]]]]]]]].
  match type of Hu with
  | update_best ?l ?a ?st = _ =>
      destruct (update_best_spec l a st) as [st' [Hu' [_ [_ [_ Htr]]]]]
  end.
  rewrite Hu in Hu'. inversion Hu'; subst st'. clear Hu'.
  eexists. split.
  - rewrite Htr. cbn [trace advance]. rewrite <- app_assoc. reflexivity.
  - unfold printed_sizes. rewrite flat_map_app. cbn [flat_map app].
    rewrite flat_map_app. fold (printed_sizes (flat_map pass_events
      (fst (forward_passes (hn_eval (hypernetwork self)) (batches loader))))).
    rewrite printed_sizes_passes. cbn [flat_map app].
    destruct (_ || _); reflexivity.
Qed.

(** [evaluate_as_ensemble], when it returns, has printed one test line per
    requested ensemble size, in the order of the list, each carrying the
    epoch number plus one. *)
Theorem evaluation_prints_one_line_per_size (epoch : nat) (ens_sizes : list nat) :
  forall self self' : Trainer,
    evaluate_as_ensemble ens_sizes epoch self = Ok (tt, self') ->
    exists evs,
      trace self' = trace self ++ evs /\
      printed_sizes evs = map (fun n => (epoch + 1, n)%nat) ens_sizes.
Proof.
  unfold evaluate_as_ensemble.
  induction ens_sizes as [|n ns IH]; intros self self' H.
  - cbn in H. inversion H; subst. exists []. now rewrite app_nil_r.
  - cbn [for_each] in H.
    apply bind_ok_inv in H. destruct H as [[] [s2 [H1 H2]]].
    apply bind_ok_inv in H1. destruct H1 as [[[loss acc] correct] [s1 [Ht He]]].
    destruct (test_prints_nothing _ _ Ht) as [evs1 [Htr1 Hp1]].
    unfold emit in He. inversion He; subst s2. clear He.
    destruct (IH _ _ H2) as [evs2 [Htr2 Hp2]].
    exists (evs1 ++ [EvPrintTest (epoch + 1) n loss acc correct] ++ evs2).
    split.
    + rewrite Htr2. cbn [trace add_event]. rewrite Htr1.
      rewrite <- !app_assoc. reflexivity.
    + unfold printed_sizes in *. rewrite !flat_map_app, Hp1, Hp2.
      reflexivity.
Qed.

End MoreTrainFacts.

(** ** The configuration is fixed by the constructor *)

Section ConfigFacts.

Import Tensor.

Context {HN GE latent theta data : Type}.
Context {HNA : HyperNetworkAPI HN latent theta data}
        {GEA : GradientEstimatorAPI GE HN theta}
        {DA : DataAPI HN data}
        {FN : Functional}.

Local Abbreviation Trainer := (@Trainer HN GE latent theta data).
Local Abbreviation M := (@M HN GE latent theta data).
Local Abbreviation event := (@event latent theta data).
Local Abbreviation config_same := (@config_same HN GE latent theta data).

Lemma config_same_refl (self : Trainer) : config_same self self.
Proof. reflexivity. Qed.

Lemma config_same_trans (s1 s2 s3 : Trainer) :
  config_same s1 s2 -> config_same s2 s3 -> config_same s1 s3.
Proof. unfold config_same. intros H1 H2. now rewrite H2. Qed.

Lemma config_emit (ev : event) : respects config_same (emit ev : M unit).
Proof. intros self a self' H. inversion H; subst. reflexivity. Qed.

Lemma config_hn_call {A} (f : HN -> A * HN) (ev : A -> event) :
  respects config_same (hn_call f ev).
Proof.
  intros self a self' H. unfold hn_call in H.
  destruct (f (hypernetwork self)). inversion H; subst. reflexivity.
Qed.

Lemma config_compute_gradients_call (outputs : tensor3) (th : theta)
    (target : list nat) :
  respects config_same (compute_gradients_call outputs th target).
Proof.
  intros self a self' H. unfold compute_gradients_call in H.
  destruct (compute_gradients outputs th target (grad_estimator self)).
  inversion H; subst. reflexivity.
Qed.

Lemma config_apply_gradients_call : respects config_same apply_gradients_call.
Proof.
  intros self a self' H. unfold apply_gradients_call in H.
  destruct (apply_gradients (grad_estimator self) (hypernetwork self)).
  inversion H; subst. reflexivity.
Qed.

Ltac config_bind :=
  apply respects_bind; [apply config_same_trans| |intros ?].

Ltac config_leaf :=
  first
    [ apply respects_ret; apply config_same_refl
    | apply respects_gets; apply config_same_refl
    | apply respects_get_attr; apply config_same_refl
    | apply config_emit
    | apply config_hn_call
    | apply config_compute_gradients_call
    | apply config_apply_gradients_call ].

Lemma config_train_batch (epoch batch_idx : nat) (b : data * list nat) :
  respects config_same (train_batch epoch batch_idx b).
Proof.
  destruct b as [d target]. unfold train_batch.
  config_bind; [config_leaf|].
  config_bind; [config_leaf|].
  config_bind; [apply config_hn_call|].
  config_bind; [config_leaf|].
  config_bind; [config_leaf|].
  config_bind; [apply config_hn_call|].
  config_bind; [config_leaf|].
  config_bind; [apply config_hn_call|].
  destruct (Nat.eqb (batch_idx mod 100) 0); config_leaf.
Qed.

Lemma config_uncertainty_step (epoch ens_size : nat) :
  respects config_same (uncertainty_step epoch ens_size).
Proof.
  unfold uncertainty_step.
  config_bind; [config_leaf|].
  config_bind; [config_leaf|].
  config_bind; [config_leaf|].
  config_bind; [config_leaf|].
  config_bind; [config_leaf|].
  config_bind; [config_leaf|].
  config_bind; [config_leaf|].
  config_leaf.
Qed.

Lemma config_test (ens_size : nat) : respects config_same (test ens_size).
Proof.
  intros self [[loss acc] correct] self' H. apply test_ok_inv in H.
  destruct H as [loader [scores [_ [_ [_ [_ [_ [_ Hu]]]]]]]].
  destruct (update_best_frame _ _ _ Hu) as [Hcfg _]. exact Hcfg.
Qed.

Lemma config_evaluate_as_ensemble (ens_sizes : list nat) (epoch : nat) :
  respects config_same (evaluate_as_ensemble ens_sizes epoch).
Proof.
  unfold evaluate_as_ensemble.
  apply respects_for_each;
    [apply config_same_refl|apply config_same_trans|intros n_models].
  config_bind; [apply config_test|].
  destruct a as [[loss acc] correct]. apply config_emit.
Qed.

Lemma config_train_epoch (epoch : nat) : respects config_same (train_epoch epoch).
Proof.
  unfold train_epoch.
  config_bind; [config_leaf|].
  config_bind.
  { apply respects_for_each;
      [apply config_same_refl|apply config_same_trans|intros ib].
    apply config_train_batch. }
  config_bind; [config_leaf|].
  config_bind; [apply config_evaluate_as_ensemble|].
  config_bind; [config_leaf|].
  destruct a3.
  - config_bind; [config_leaf|].
    apply respects_for_each;
      [apply config_same_refl|apply config_same_trans|intros ens_size].
    apply config_uncertainty_step.
  - config_leaf.
Qed.

Lemma config_train : respects config_same train.
Proof.
  unfold train. config_bind; [config_leaf|].
  apply respects_for_each;
    [apply config_same_refl|apply config_same_trans|intros epoch].
  apply config_train_epoch.
Qed.

(** No method assigns the configuration again: after a training batch,
    an epoch or a whole run that returns, the vote mode, the number of
    particles, the number of epochs, the two flags and the loaders are
    what the constructor set. *)
Theorem configuration_fixed_by_constructor :
  (forall (epoch : nat) (self self' : Trainer),
      train_epoch epoch self = Ok (tt, self') -> config self' = config self) /\
  (forall self self' : Trainer,
      train self = Ok (tt, self') ->
      config self' = config self /\
      vote self' = vote self /\ particles self' = particles self /\
      epochs self' = epochs self /\
      test_ensemble self' = test_ensemble self /\
      test_uncertainty self' = test_uncertainty self /\
      data_train self' = data_train self /\ data_test self' = data_test self) /\
  (forall (a : args.t) (self self' : Trainer),
      __init__ a = Ok self -> train self = Ok (tt, self') ->
      vote self' = args.vote a /\ particles self' = args.num_particles a /\
      dataset self' = args.dataset a /\ epochs self' = 200%nat).
Proof.
  assert (Htrain : forall self self' : Trainer,
             train self = Ok (tt, self') -> config self' = config self).
  { intros self self' H. eapply config_train; exact H. }
  split; [|split].
  - intros epoch self self' H. eapply config_train_epoch; exact H.
  - intros self self' H. specialize (Htrain _ _ H).
    split; [exact Htrain|].
    unfold config in Htrain. inversion Htrain. repeat split; assumption.
  - intros a self self' Hi H. specialize (Htrain _ _ H).
    unfold config in Htrain. inversion Htrain.
    destruct (init_returns a) as [t [Hi' [Hd [Hv [He _]]]]].
    rewrite Hi in Hi'. inversion Hi'; subst t.
    assert (Hp : particles self = args.num_particles a).
    { unfold __init__ in Hi.
      destruct (String.eqb (args.dataset a) "mnist");
        [|destruct (String.eqb (args.dataset a) "cifar")];
        inversion Hi; reflexivity. }
    repeat split; congruence.
Qed.

(** *** An unknown vote mode *)

(** Under a vote mode other than 'soft' and 'hard' no evaluation of a
    loader that yields a batch can return: the first batch raises, either
    in [torch.stack] (no member left) or at the read of the unbound local
    [vote]. *)
Theorem unknown_vote_mode_never_evaluates
    (ens_size : nat) (self : Trainer) (loader : Loader data) :
  vote self <> "soft"%string -> vote self <> "hard"%string ->
  data_test self = Some loader ->
  batches loader <> [] ->
  test ens_size self = Raise (RuntimeError "stack expects a non-empty TensorList") \/
  test ens_size self = Raise (UnboundLocalError "vote").
Proof.
  intros Hs Hh Hdt Hb. rewrite test_unfold, Hdt. cbn zeta.
  destruct (batches loader) as [|b bs]; [congruence|].
  destruct (forward_passes_cons (hn_eval (hypernetwork self)) b bs)
    as [p [ps Hfp]].
  rewrite Hfp. unfold score_passes. cbn [rmap]. unfold score_batch.
  destruct (firstn ens_size (transpose (p_out p))) as [|m ms].
  - left. reflexivity.
  - right. cbn [map stack rbind]. unfold cast_vote.
    apply String.eqb_neq in Hs, Hh. now rewrite Hs, Hh.
Qed.

End ConfigFacts.

(** ** The range of the best metrics, and the uncertainty step *)

Section RangeFacts.

Import Tensor.

Context {HN GE latent theta data : Type}.
Context {HNA : HyperNetworkAPI HN latent theta data}
        {GEA : GradientEstimatorAPI GE HN theta}
        {DA : DataAPI HN data}
        {FN : Functional}.

Local Abbreviation Trainer := (@Trainer HN GE latent theta data).
Local Abbreviation M := (@M HN GE latent theta data).
Local Abbreviation event := (@event latent theta data).
Local Abbreviation metrics_in_range := (@metrics_in_range HN GE latent theta data).

Lemma preserves_bind {A B} (I : Trainer -> Prop) (m : M A) (k : A -> M B) :
  preserves I m -> (forall a, preserves I (k a)) -> preserves I (bind m k).
Proof.
  intros Hm Hk self b self' HI H. unfold bind in H.
  destruct (m self) as [[a s1]|e] eqn:Hms; [|discriminate].
  eapply Hk; [eapply Hm; eassumption|exact H].
Qed.

Lemma preserves_for_each {X} (I : Trainer -> Prop) (l : list X)
    (body : X -> M unit) :
  (forall x, preserves I (body x)) -> preserves I (for_each l body).
Proof.
  intros Hbody. induction l as [|x rest IH]; cbn [for_each].
  - intros self a self' HI H. inversion H; subst. exact HI.
  - apply preserves_bind; [apply Hbody|intros _; exact IH].
Qed.

(** A method that leaves the configuration and the best metrics alone
    keeps the range. *)
Lemma preserves_of_frame {A} (m : M A) :
  respects config_same m -> respects best_same m -> preserves metrics_in_range m.
Proof.
  intros Hc Hb self a self' [Hld [Hacc Hloss]] H.
  specialize (Hc _ _ _ H). destruct (Hb _ _ _ H) as [Hl Ha].
  unfold config_same, config in Hc. inversion Hc as [Hfields].
  split; [|split].
  - intros loader Hdt. apply Hld. congruence.
  - now rewrite Ha.
  - now rewrite Hl.
Qed.

Lemma range_test (ens_size : nat) : preserves metrics_in_range (test ens_size).
Proof.
  intros self [[loss acc] correct] self' [Hld [Hacc Hloss]] H.
  destruct (correct_votes_bounded_by_range_helper _ _ H) as [loader [Hdt [H0 H1]]].
  assert (Hc : config_same self self') by (eapply config_test; exact H).
  unfold config_same, config in Hc. inversion Hc as [Hfields].
  destruct (test_updates_best _ _ H) as [Hl Ha].
  split; [|split].
  - intros loader' Hdt'. apply Hld. congruence.
  - destruct Ha as [Ha|[Ha _]]; [now rewrite Ha|].
    exists acc. split; [exact Ha|]. split; [exact H0|].
    apply H1. now apply Hld.
  - destruct Hl as [Hl|[Hl _]]; [now rewrite Hl|]. right. now exists loss.
Qed.

Lemma range_evaluate_as_ensemble (ens_sizes : list nat) (epoch : nat) :
  preserves metrics_in_range (evaluate_as_ensemble ens_sizes epoch).
Proof.
  unfold evaluate_as_ensemble. apply preserves_for_each. intros n_models.
  apply preserves_bind; [apply range_test|].
  intros [[loss acc] correct].
  apply preserves_of_frame; [apply config_emit|apply same_emit].
Qed.

Lemma range_train_epoch (epoch : nat) :
  preserves metrics_in_range (train_epoch epoch).
Proof.
  unfold train_epoch.
  apply preserves_bind.
  { apply preserves_of_frame;
      apply respects_get_attr; first [apply config_same_refl|apply best_same_refl]. }
  intros loader. apply preserves_bind.
  { apply preserves_for_each. intros ib.
    apply preserves_of_frame; [apply config_train_batch|apply same_train_batch]. }
  intros _. apply preserves_bind.
  { apply preserves_of_frame;
      apply respects_gets; first [apply config_same_refl|apply best_same_refl]. }
  intros ens_sizes. apply preserves_bind; [apply range_evaluate_as_ensemble|].
  intros _. apply preserves_bind.
  { apply preserves_of_frame;
      apply respects_gets; first [apply config_same_refl|apply best_same_refl]. }
  intros [|].
  - apply preserves_bind.
    { apply preserves_of_frame;
        apply respects_gets; first [apply config_same_refl|apply best_same_refl]. }
    intros p. apply preserves_for_each. intros ens_size.
    apply preserves_of_frame;
      [apply config_uncertainty_step|apply same_uncertainty_step].
  - apply preserves_of_frame;
      apply respects_ret; first [apply config_same_refl|apply best_same_refl].
Qed.

Lemma range_train : preserves metrics_in_range train.
Proof.
  unfold train. apply preserves_bind.
  { apply preserves_of_frame;
      apply respects_gets; first [apply config_same_refl|apply best_same_refl]. }
  intros n. apply preserves_for_each. intros epoch. apply range_train_epoch.
Qed.

(** When the test loader yields no more examples than [len(dataset)],
    the best accuracy after an epoch, and after a whole run, that returns
    is a fraction between 0 and 1, and the best loss is a number or still
    infinite, never NaN. *)
Theorem best_accuracy_stays_between_zero_and_one (a : args.t) (self : Trainer) :
  __init__ a = Ok self ->
  (forall loader, data_test self = Some loader ->
     (n_examples (batches loader) <= dataset_len loader)%nat) ->
  (forall (epoch : nat) (self' : Trainer),
      train_epoch epoch self = Ok (tt, self') ->
      (exists q, best_test_acc self' = Fin q /\ 0 <= q /\ q <= 1) /\
      (best_test_loss self' = PInf \/ exists l, best_test_loss self' = Fin l)) /\
  (forall self' : Trainer,
      train self = Ok (tt, self') ->
      (exists q, best_test_acc self' = Fin q /\ 0 <= q /\ q <= 1) /\
      (best_test_loss self' = PInf \/ exists l, best_test_loss self' = Fin l)).
Proof.
  intros Hi Hld.
  assert (HI : metrics_in_range self).
  { split; [exact Hld|].
    unfold __init__ in Hi.
    destruct (String.eqb (args.dataset a) "mnist");
      [|destruct (String.eqb (args.dataset a) "cifar")];
      inversion Hi; cbn; (split; [exists 0; repeat split; discriminate|now left]). }
  split.
  - intros epoch self' Ht.
    assert (HI' : metrics_in_range self') by (eapply range_train_epoch; eassumption).
    destruct HI' as [_ Hr]. exact Hr.
  - intros self' Ht.
    assert (HI' : metrics_in_range self') by (eapply range_train; eassumption).
    destruct HI' as [_ Hr]. exact Hr.
Qed.

(** *** The uncertainty step *)

Lemma uncertainty_step_advance (epoch ens_size : nat) (self : Trainer)
    (f : HN -> nat -> nat -> bool -> (Q * Q) * HN) (p : plotter) :
  uncertainty_fn self = Some f -> plot_fn self = Some p ->
  uncertainty_step epoch ens_size self
  = Ok (tt, advance
              (snd (f (snd (f (hypernetwork self) ens_size (s self) false))
                      ens_size (s self) true))
              (grad_estimator self)
              [EvUncertainty ens_size false; EvUncertainty ens_size true;
               EvPlot p ens_size (epoch + 1)] self).
Proof.
  intros Hf Hp. unfold uncertainty_step.
  unfold bind at 1, get_attr at 1. rewrite Hf.
  unfold bind at 1, gets at 1.
  rewrite <- (advance_nil self) at 1.
  unfold bind at 1. rewrite hn_call_advance. cbn [app fst snd].
  unfold bind at 1, get_attr at 1. cbn [uncertainty_fn advance]. rewrite Hf.
  unfold bind at 1, gets at 1. cbn [s advance].
  unfold bind at 1.
  rewrite hn_call_advance. cbn [app fst snd].
  unfold bind at 1, get_attr at 1. cbn [plot_fn advance]. rewrite Hp.
  rewrite emit_advance. reflexivity.
Qed.

(** With the uncertainty and plot functions set, an uncertainty step calls
    the uncertainty function on the in-distribution data, then on the
    outliers, then plots under the epoch number plus one; with the
    uncertainty function never assigned it raises an attribute error. *)
Theorem uncertainty_step_inliers_outliers_plot
    (epoch ens_size : nat) (self : Trainer) :
  (forall f p,
      uncertainty_fn self = Some f -> plot_fn self = Some p ->
      exists self',
        uncertainty_step epoch ens_size self = Ok (tt, self') /\
        trace self'
        = trace self ++
          [EvUncertainty ens_size false; EvUncertainty ens_size true;
           EvPlot p ens_size (epoch + 1)] /\
        hypernetwork self'
        = snd (f (snd (f (hypernetwork self) ens_size (s self) false))
                 ens_size (s self) true)) /\
  (uncertainty_fn self = None ->
   uncertainty_step epoch ens_size self = Raise (AttributeError "uncertainty_fn")).
Proof.
  split.
  - intros f p Hf Hp. eexists.
    split; [apply (uncertainty_step_advance epoch ens_size self Hf Hp)|].
    split; reflexivity.
  - intros Hf. unfold uncertainty_step, bind, get_attr. now rewrite Hf.
Qed.

End RangeFacts.

(** ** Concrete runs for the further properties *)

(** For the first example of [Toy.batch1] two of the three members choose
    label 0. *)
Lemma strict_majority_witness :
  Forall (fun m => List.length m = 2%nat) (Tensor.transpose (fst Toy.batch1)) /\
  rmap (rmap Tensor.argmax) (map (map softmax) (Tensor.transpose (fst Toy.batch1)))
  = Ok [[0; 1]; [0; 0]; [1; 1]]%nat /\
  exists votes,
    vote_hard (Tensor.transpose (fst Toy.batch1)) = Ok votes /\
    nth 0 votes 0%nat = 0%nat.
Proof.
  assert (H1 : Forall (fun m => List.length m = 2%nat)
                      (Tensor.transpose (fst Toy.batch1)))
    by (vm_compute; repeat constructor).
  assert (H2 : rmap (rmap Tensor.argmax)
                 (map (map softmax) (Tensor.transpose (fst Toy.batch1)))
               = Ok [[0; 1]; [0; 0]; [1; 1]]%nat)
    by (vm_compute; reflexivity).
  split; [exact H1|]. split; [exact H2|].
  destruct (hard_vote_returns_strict_majority_label H1 H2) as [votes [Hv Hmaj]].
  exists votes. split; [exact Hv|].
  apply Hmaj; [lia|]. vm_compute. lia.
Defined.

(** The three members of [Toy.batch1] in reverse order give the same
    votes. *)
Lemma member_order_witness :
  Permutation (Tensor.transpose (fst Toy.batch1))
              (rev (Tensor.transpose (fst Toy.batch1))) /\
  vote_hard (rev (Tensor.transpose (fst Toy.batch1)))
  = vote_hard (Tensor.transpose (fst Toy.batch1)).
Proof.
  assert (H0 : Permutation (Tensor.transpose (fst Toy.batch1))
                           (rev (Tensor.transpose (fst Toy.batch1))))
    by apply Permutation_rev.
  assert (H1 : Forall (fun m => List.length m = 2%nat)
                      (Tensor.transpose (fst Toy.batch1)))
    by (vm_compute; repeat constructor).
  assert (H2 : rmap (rmap Tensor.argmax)
                 (map (map softmax) (Tensor.transpose (fst Toy.batch1)))
               = Ok [[0; 1]; [0; 0]; [1; 1]]%nat)
    by (vm_compute; reflexivity).
  split; [exact H0|].
  exact (hard_vote_ignores_member_order H0 H1 H2).
Defined.

Lemma best_dominates_witness :
  exists (self' : ToyTrainer) (loss acc : Q) (correct : nat),
    test 3 Toy.trainer = Ok ((loss, acc, correct), self') /\
    flt (Fin loss) (best_test_loss self') = false /\
    fgt (Fin acc) (best_test_acc self') = false.
Proof.
  destruct (test 3 Toy.trainer) as [[[[loss acc] correct] self']|e] eqn:H.
  - exists self', loss, acc, correct. split; [reflexivity|].
    exact (best_metrics_dominate_latest_measurement _ _ H).
  - vm_compute in H. discriminate H.
Defined.

Lemma new_best_witness :
  exists (self' : ToyTrainer) (loss acc : Q) (correct : nat),
    test 3 Toy.trainer = Ok ((loss, acc, correct), self') /\
    exists evs,
      Forall (fun ev => ev <> EvNewBest) evs /\
      trace self'
      = trace Toy.trainer ++ evs ++
        EvTrain ::
        (if flt (Fin loss) (best_test_loss Toy.trainer)
            || fgt (Fin acc) (best_test_acc Toy.trainer)
         then [EvNewBest] else []).
Proof.
  destruct (test 3 Toy.trainer) as [[[[loss acc] correct] self']|e] eqn:H.
  - exists self', loss, acc, correct. split; [reflexivity|].
    exact (new_best_reported_iff_metric_improves _ _ H).
  - vm_compute in H. discriminate H.
Defined.

Lemma evaluation_never_trains_witness :
  exists (r : Q * Q * nat) (self' : ToyTrainer),
    test 3 Toy.trainer = Ok (r, self') /\
    (exists evs,
        trace self' = trace Toy.trainer ++ evs /\
        Forall (fun ev => is_training_call ev = false) evs) /\
    grad_estimator self' = grad_estimator Toy.trainer /\
    config self' = config Toy.trainer.
Proof.
  destruct (test 3 Toy.trainer) as [[r self']|e] eqn:H.
  - exists r, self'. split; [reflexivity|].
    exact (evaluation_never_trains _ _ H).
  - vm_compute in H. discriminate H.
Defined.

Lemma subsize_independence_witness :
  exists (r1 r2 : Q * Q * nat) (s1 s2 : ToyTrainer),
    test 1 Toy.trainer = Ok (r1, s1) /\
    test 3 Toy.trainer = Ok (r2, s2) /\
    hypernetwork s1 = hypernetwork s2 /\
    List.length (filter is_sample (trace s1))
    = List.length (filter is_sample (trace s2)).
Proof.
  destruct (test 1 Toy.trainer) as [[r1 s1]|e] eqn:H1;
    [|vm_compute in H1; discriminate H1].
  destruct (test 3 Toy.trainer) as [[r2 s2]|e] eqn:H2;
    [|vm_compute in H2; discriminate H2].
  exists r1, r2, s1, s2. split; [reflexivity|]. split; [reflexivity|].
  exact (evaluation_leaves_hypernetwork_independent_of_subsize _ _ _ H1 H2).
Defined.

Lemma correct_votes_witness :
  exists (self' : ToyTrainer) (loss acc : Q) (correct : nat),
    test 3 Toy.trainer = Ok ((loss, acc, correct), self') /\
    (correct <= n_examples (batches Toy.loader))%nat /\
    0 <= acc /\ acc <= 1.
Proof.
  destruct (test 3 Toy.trainer) as [[[[loss acc] correct] self']|e] eqn:H.
  - exists self', loss, acc, correct. split; [reflexivity|].
    destruct (correct_votes_bounded_by_examples _ _ H)
      as [loader [Hdt [Hc [H0 H1]]]].
    assert (Hl : loader = Toy.loader) by (cbn in Hdt; congruence).
    subst loader. split; [exact Hc|]. split; [exact H0|].
    apply H1. vm_compute. lia.
  - vm_compute in H. discriminate H.
Defined.

Lemma empty_test_set_witness :
  data_test Toy.trainer_empty = Some Toy.empty_loader /\
  dataset_len Toy.empty_loader = 0%nat /\
  test 3 Toy.trainer_empty = Raise ZeroDivisionError.
Proof.
  assert (H1 : data_test Toy.trainer_empty = Some Toy.empty_loader) by reflexivity.
  assert (H2 : dataset_len Toy.empty_loader = 0%nat) by reflexivity.
  split; [exact H1|]. split; [exact H2|].
  exact (proj2 (empty_test_set_raises_zero_division 3 _ H1 H2) eq_refl).
Defined.

Lemma unset_test_loader_witness :
  args.dataset (Toy.args3 "svhn" "hard") <> "mnist"%string /\
  args.dataset (Toy.args3 "svhn" "hard") <> "cifar"%string /\
  exists t : ToyTrainer,
    __init__ (Toy.args3 "svhn" "hard") = Ok t /\
    test 3 t = Raise (AttributeError "data_test").
Proof.
  assert (H1 : args.dataset (Toy.args3 "svhn" "hard") <> "mnist"%string)
    by discriminate.
  assert (H2 : args.dataset (Toy.args3 "svhn" "hard") <> "cifar"%string)
    by discriminate.
  split; [exact H1|]. split; [exact H2|].
  exact (proj2 unset_test_loader_raises_attribute_error
           (Toy.args3 "svhn" "hard") 3%nat H1 H2).
Defined.

Lemma empty_subensemble_witness :
  data_test Toy.trainer = Some Toy.loader /\
  batches Toy.loader <> [] /\
  test 0 Toy.trainer
  = Raise (RuntimeError "stack expects a non-empty TensorList").
Proof.
  assert (H1 : data_test Toy.trainer = Some Toy.loader) by reflexivity.
  assert (H2 : batches Toy.loader <> []) by discriminate.
  split; [exact H1|]. split; [exact H2|].
  exact (empty_subensemble_raises_on_first_batch _ H1 H2).
Defined.

Lemma evaluation_prints_witness :
  exists self' : ToyTrainer,
    evaluate_as_ensemble [1; 3]%nat 0 Toy.trainer = Ok (tt, self') /\
    exists evs,
      trace self' = trace Toy.trainer ++ evs /\
      printed_sizes evs = [(1, 1); (1, 3)]%nat.
Proof.
  destruct (evaluate_as_ensemble [1; 3]%nat 0 Toy.trainer)
    as [[[] self']|e] eqn:H.
  - exists self'. split; [reflexivity|].
    exact (evaluation_prints_one_line_per_size 0 [1; 3]%nat _ H).
  - vm_compute in H. discriminate H.
Defined.

Lemma configuration_fixed_witness :
  exists self' : ToyTrainer,
    train_epoch 0 Toy.trainer = Ok (tt, self') /\
    config self' = config Toy.trainer.
Proof.
  destruct (train_epoch 0 Toy.trainer) as [[[] self']|e] eqn:H.
  - exists self'. split; [reflexivity|].
    exact (proj1 configuration_fixed_by_constructor 0%nat _ _ H).
  - vm_compute in H. discriminate H.
Defined.

Lemma unknown_vote_mode_witness :
  vote Toy.trainer_majority <> "soft"%string /\
  vote Toy.trainer_majority <> "hard"%string /\
  data_test Toy.trainer_majority = Some Toy.loader /\
  batches Toy.loader <> [] /\
  (test 3 Toy.trainer_majority
   = Raise (RuntimeError "stack expects a non-empty TensorList") \/
   test 3 Toy.trainer_majority = Raise (UnboundLocalError "vote")).
Proof.
  assert (H1 : vote Toy.trainer_majority <> "soft"%string) by discriminate.
  assert (H2 : vote Toy.trainer_majority <> "hard"%string) by discriminate.
  assert (H3 : data_test Toy.trainer_majority = Some Toy.loader) by reflexivity.
  assert (H4 : batches Toy.loader <> []) by discriminate.
  split; [exact H1|]. split; [exact H2|]. split; [exact H3|]. split; [exact H4|].
  exact (unknown_vote_mode_never_evaluates 3 _ H1 H2 H3 H4).
Defined.

Lemma best_accuracy_range_witness :
  __init__ (Toy.args3 "mnist" "hard") = Ok Toy.trainer /\
  (forall loader, data_test Toy.trainer = Some loader ->
     (n_examples (batches loader) <= dataset_len loader)%nat) /\
  exists self' : ToyTrainer,
    train_epoch 0 Toy.trainer = Ok (tt, self') /\
    (exists q, best_test_acc self' = Fin q /\ 0 <= q /\ q <= 1) /\
    (best_test_loss self' = PInf \/ exists l, best_test_loss self' = Fin l).
Proof.
  assert (H1 : __init__ (Toy.args3 "mnist" "hard") = Ok Toy.trainer)
    by reflexivity.
  assert (H2 : forall loader, data_test Toy.trainer = Some loader ->
     (n_examples (batches loader) <= dataset_len loader)%nat).
  { intros loader Hl. inversion Hl; subst. vm_compute. lia. }
  split; [exact H1|]. split; [exact H2|].
  destruct (train_epoch 0 Toy.trainer) as [[[] self']|e] eqn:H.
  - exists self'. split; [reflexivity|].
    exact (proj1 (best_accuracy_stays_between_zero_and_one _ H1 H2) 0%nat _ H).
  - vm_compute in H. discriminate H.
Defined.

Lemma uncertainty_step_witness :
  uncertainty_fn Toy.trainer = Some eval_mnist_hypernetwork /\
  plot_fn Toy.trainer = Some plot_density_mnist /\
  exists self' : ToyTrainer,
    uncertainty_step 0 5 Toy.trainer = Ok (tt, self') /\
    trace self'
    = trace Toy.trainer ++
      [EvUncertainty 5 false; EvUncertainty 5 true; EvPlot plot_density_mnist 5 1].
Proof.
  assert (H1 : uncertainty_fn Toy.trainer = Some eval_mnist_hypernetwork)
    by reflexivity.
  assert (H2 : plot_fn Toy.trainer = Some plot_density_mnist) by reflexivity.
  split; [exact H1|]. split; [exact H2|].
  destruct (proj1 (uncertainty_step_inliers_outliers_plot 0 5 Toy.trainer)
              _ _ H1 H2) as [self' [Hs [Ht _]]].
  exists self'. split; [exact Hs|exact Ht].
Defined.
